(** * whale_mt: selection bookkeeping, wallet export and refresh lifecycle

    A shallow embedding of the logic of the HyperLiquid analytics dashboard:
    - [App.tsx]: the cross-view list of selected wallets
      ([handleSelectWallet], [removeWallet], [clearAllWallets],
      [saveWalletsToFile]);
    - [LivePositions.tsx], [TradeStatistics.tsx], [TopTraders.tsx],
      [WhaleDetection.tsx]: the per-view selection sets
      ([toggleSelectTrader], [selectAllVisible], [selectAll], [deselectAll]),
      the fetch lifecycles ([loadPositions], [loadData], [loadTraders],
      [loadWhales]) and the derived ranking [sortedByWinRate].

    React state is modelled the way the components use it: a handler reads
    the values of the render it was created in (the snapshot) and emits
    effects; [setX(v)] and [setX(prev => ...)] are effects applied to the
    state once the handler has run. *)

From Stdlib Require Import ZArith QArith Lia Lqa List String Ascii Sorted Permutation.
From stdpp Require Import base gmap strings list pretty.

Local Open Scope string_scope.
Local Open Scope list_scope.

(** ** JavaScript strings *)

Module JS.

(** The line feed of the template literals and of [join('\n')]. *)
Definition LF : string := String (ascii_of_nat 10) EmptyString.

(** The double quote, which delimits JSON string literals. *)
Definition DQ : ascii := ascii_of_nat 34.

(** A string is the sequence of the bytes of its UTF-8 encoding.

    [String.prototype.toLowerCase] is a built-in of the language, defined by
    the case mappings of Unicode. The handlers that call it are embedded
    over the built-in as a function [toLowerCase : string -> string] they
    take as an argument; nothing is assumed of it, so what is proved of them
    holds of every address. What the built-in does to a string of ASCII
    characters is [ascii_toLowerCase]: 'A'..'Z' go to 'a'..'z' and every
    other character is left alone. *)
Definition lower_ascii (c : ascii) : ascii :=
  let n := nat_of_ascii c in
  if (Nat.leb 65 n && Nat.leb n 90)%bool then ascii_of_nat (n + 32) else c.

Fixpoint ascii_toLowerCase (s : string) : string :=
  match s with
  | EmptyString => EmptyString
  | String c r => String (lower_ascii c) (ascii_toLowerCase r)
  end.

(** A string of ASCII characters: every byte is below 128. *)
Fixpoint is_ascii (s : string) : bool :=
  match s with
  | EmptyString => true
  | String c r => Nat.ltb (nat_of_ascii c) 128 && is_ascii r
  end.

(** A lowering function that is the built-in on the strings of ASCII
    characters. *)
Definition lowers_ascii (toLowerCase : string -> string) : Prop :=
  forall s, is_ascii s = true -> toLowerCase s = ascii_toLowerCase s.

(** [Array.prototype.join(sep)] on an array of strings. *)
Fixpoint join (sep : string) (l : list string) : string :=
  match l with
  | [] => EmptyString
  | [x] => x
  | x :: r => x ++ sep ++ join sep r
  end.

(** [s.split('\n')]: the lines of a text. *)
Fixpoint split_lines (s : string) : list string :=
  match s with
  | EmptyString => [EmptyString]
  | String c r =>
      if Ascii.eqb c (ascii_of_nat 10) then EmptyString :: split_lines r
      else
        match split_lines r with
        | [] => [String c EmptyString]
        | line :: rest => String c line :: rest
        end
  end.

(** A string without a line feed. *)
Fixpoint one_line (s : string) : bool :=
  match s with
  | EmptyString => true
  | String c r => negb (Ascii.eqb c (ascii_of_nat 10)) && one_line r
  end.

(** [`${n}`] for a non-negative integer below 1e21: its decimal digits. *)
Definition number_to_string (n : N) : string := pretty n.

(** The number a string of decimal digits denotes; [None] for the empty
    string and for a string with another character. *)
Definition digit_value (c : ascii) : option N :=
  let n := N_of_ascii c in
  if (N.leb 48 n && N.leb n 57)%bool then Some (n - 48)%N else None.

Fixpoint decimal_from (acc : N) (s : string) : option N :=
  match s with
  | EmptyString => Some acc
  | String c r =>
      match digit_value c with
      | Some d => decimal_from (10 * acc + d)%N r
      | None => None
      end
  end.

Definition parse_decimal (s : string) : option N :=
  match s with
  | EmptyString => None
  | _ => decimal_from 0 s
  end.

(** The characters [JSON.stringify] escapes inside a string literal. *)
Definition hex_digit (n : nat) : ascii :=
  if Nat.ltb n 10 then ascii_of_nat (48 + n) else ascii_of_nat (87 + n).

Definition json_escape_char (c : ascii) : string :=
  let n := nat_of_ascii c in
  if Nat.eqb n 34 then String "\" (String DQ EmptyString)
  else if Nat.eqb n 92 then "\\"
  else if Nat.eqb n 8 then "\b"
  else if Nat.eqb n 12 then "\f"
  else if Nat.eqb n 10 then "\n"
  else if Nat.eqb n 13 then "\r"
  else if Nat.eqb n 9 then "\t"
  else if Nat.ltb n 32 then
    "\u00" ++ String (hex_digit (n / 16)) (String (hex_digit (n mod 16)) EmptyString)
  else String c EmptyString.

Fixpoint json_escape (s : string) : string :=
  match s with
  | EmptyString => EmptyString
  | String c r => json_escape_char c ++ json_escape r
  end.

Definition json_string (s : string) : string :=
  String DQ (json_escape s) ++ String DQ EmptyString.

End JS.

(** ** App.tsx: the wallet aggregator *)

Module App.
Import JS.

(** [interface SelectedWallet { address: string; source: string }] *)
Record SelectedWallet := { address : string; source : string }.

(** What [saveWalletsToFile] hands to the browser: the [Blob] content and
    type, and the [download] name of the link it clicks. *)
Record File := { content : string; filename : string; mimeType : string }.

(** The effects of the handlers of [App]: a queued update of the
    [selectedWallets] state (React applies the updater to the state at the
    time of the update, [prev]) and a file download. *)
Inductive Effect :=
| setSelectedWallets (updater : list SelectedWallet -> list SelectedWallet)
| download (f : File).

Section Handlers.
(** The built-in [String.prototype.toLowerCase]. *)
Variable toLowerCase : string -> string.

(** [w => w.address.toLowerCase() === address.toLowerCase()] *)
Definition same_address (address0 : string) (w : SelectedWallet) : bool :=
  String.eqb (toLowerCase (address w)) (toLowerCase address0).

(** [handleSelectWallet]: [selectedWallets] is the value of the render the
    handler belongs to; the append is an updater on [prev]. *)
Definition handleSelectWallet (selectedWallets : list SelectedWallet)
    (address0 source0 : string) : list Effect :=
  match List.find (same_address address0) selectedWallets with
  | Some _exists => []
  | None =>
      [setSelectedWallets
         (fun prev => prev ++ [{| address := address0; source := source0 |}])]
  end.

Definition removeWallet (address0 : string) : list Effect :=
  [setSelectedWallets
     (fun prev => List.filter (fun w => negb (same_address address0 w)) prev)].

End Handlers.

Definition clearAllWallets : list Effect :=
  [setSelectedWallets (fun _ => [])].

(** The clock read by [saveWalletsToFile]: [Date.now()] is read once per
    call, [new Date().toISOString()] once per exported row (the argument
    is the index of the row). *)
Record Clock := { Date_now : N; toISOString : nat -> string }.

(** [JSON.stringify(selectedWallets, null, 2)] on an array of
    [{address, source}] objects. *)
Definition json_wallet (w : SelectedWallet) : string :=
  "  {" ++ LF
  ++ "    " ++ json_string "address" ++ ": " ++ json_string (address w) ++ "," ++ LF
  ++ "    " ++ json_string "source" ++ ": " ++ json_string (source w) ++ LF
  ++ "  }".

Definition JSON_stringify (ws : list SelectedWallet) : string :=
  match ws with
  | [] => "[]"
  | _ => "[" ++ LF ++ join ("," ++ LF) (map json_wallet ws) ++ LF ++ "]"
  end.

(** The [forEach] of the csv branch: [content += `${w.address},${w.source},${iso}\n`]. *)
Fixpoint csv_rows (clock : Clock) (i : nat) (ws : list SelectedWallet)
    (content0 : string) : string :=
  match ws with
  | [] => content0
  | w :: rest =>
      csv_rows clock (S i) rest
        (content0 ++ address w ++ "," ++ source w ++ "," ++ toISOString clock i ++ LF)
  end.

(** [saveWalletsToFile(format)]. The format is the string the function
    receives at run time; the branches are the source's [===] tests, the
    last one an [else] without a test. *)
Definition saveWalletsToFile (selectedWallets : list SelectedWallet)
    (clock : Clock) (format : string) : list Effect :=
  if Nat.eqb (length selectedWallets) 0 then []
  else
    let now := number_to_string (Date_now clock) in
    let file :=
      if String.eqb format "json" then
        {| content := JSON_stringify selectedWallets;
           filename := "hyperliquid_wallets_" ++ now ++ ".json";
           mimeType := "application/json" |}
      else if String.eqb format "csv" then
        {| content := csv_rows clock 0 selectedWallets ("Address,Source,Selected At" ++ LF);
           filename := "hyperliquid_wallets_" ++ now ++ ".csv";
           mimeType := "text/csv" |}
      else
        {| content := join LF (map address selectedWallets);
           filename := "wallet_addresses_" ++ now ++ ".txt";
           mimeType := "text/plain" |}
    in [download file].

(** The state of [selectedWallets] once React has applied the queued
    updaters of an event, in the order they were queued. *)
Definition commit (selectedWallets : list SelectedWallet) (effects : list Effect)
    : list SelectedWallet :=
  fold_left
    (fun st e => match e with setSelectedWallets u => u st | download _ => st end)
    effects selectedWallets.

(** The files an event hands to the browser. *)
Definition downloads (effects : list Effect) : list File :=
  omap (fun e => match e with download f => Some f | setSelectedWallets _ => None end)
    effects.

Section Events.
Variable toLowerCase : string -> string.

(** The aggregator operations of one user event each, the event making
    the one call: the handler runs on the rendered list and React commits
    its updates before the next event. *)
Definition add (selectedWallets : list SelectedWallet) (address0 source0 : string) :=
  commit selectedWallets (handleSelectWallet toLowerCase selectedWallets address0 source0).

Definition remove (selectedWallets : list SelectedWallet) (address0 : string) :=
  commit selectedWallets (removeWallet toLowerCase address0).

(** Some entry of the list has the address, up to letter case. *)
Definition listed (selectedWallets : list SelectedWallet) (address0 : string) : Prop :=
  exists w, In w selectedWallets /\ toLowerCase (address w) = toLowerCase address0.

End Events.

Definition clear (selectedWallets : list SelectedWallet) :=
  commit selectedWallets clearAllWallets.






End App.

(** ** Arrays: [sort], [slice] *)

Module JSArray.

Section Sort.
Context {A : Type}.
(** The comparator of [Array.prototype.sort]: [x] goes after [y] only
    when [compareFn x y > 0]. The sort is stable (ECMAScript 2019), so
    for a consistent comparator its result is the one of a stable
    insertion sort. *)
Variable compareFn : A -> A -> Q.

Definition before (x y : A) : bool := Qle_bool (compareFn x y) 0.

Fixpoint sort_insert (x : A) (l : list A) : list A :=
  match l with
  | [] => [x]
  | y :: r => if before x y then x :: y :: r else y :: sort_insert x r
  end.

Definition sort (l : list A) : list A := foldr sort_insert [] l.
End Sort.

(** The order of an array sorted by a numeric key, largest first. *)
Definition descending {A : Type} (key : A -> Q) (a b : A) : Prop :=
  (key b <= key a)%Q.

(** [l.slice(0, end)] for an integer [end]: a negative [end] counts from
    the end of the array. *)
Definition slice0 {A : Type} (end_ : Z) (l : list A) : list A :=
  let len := Z.of_nat (length l) in
  let k := if (end_ <? 0)%Z then Z.max (len + end_) 0 else Z.min end_ len in
  firstn (Z.to_nat k) l.

End JSArray.

(** ** The value objects of [../types]

    The declarations are not part of the sources at hand: each record holds
    the fields the modelled code reads. A JavaScript [number] is a rational
    here; the code only compares numbers and takes the sign of differences. *)

Module Trader.
Record t := { address : string; pnl : Q; volume : Q; pnlRatio : Q }.
End Trader.

Module TradeStats.
Record t := {
  address : string; totalTrades : Q; totalVolume : Q; winRate : Q; totalPnl : Q }.
End TradeStats.

(** [interface ExtendedTradeStats extends TradeStats { trader?: Trader }] *)
Module ExtendedTradeStats.
Record t := { stats : TradeStats.t; trader : option Trader.t }.
Definition address (s : t) : string := TradeStats.address (stats s).
Definition totalTrades (s : t) : Q := TradeStats.totalTrades (stats s).
Definition totalVolume (s : t) : Q := TradeStats.totalVolume (stats s).
Definition winRate (s : t) : Q := TradeStats.winRate (stats s).
Definition totalPnl (s : t) : Q := TradeStats.totalPnl (stats s).
End ExtendedTradeStats.

Module Whale.
Record t := { address : string; balance : Q; pnl : Q }.
End Whale.

Module LivePosition.
Record t := { address : string; status : string; pnl : Q }.
End LivePosition.

(** ** Promises and the fetch lifecycle *)

Module Async.

(** How a promise settles. *)
Inductive Settled (A : Type) :=
| Fulfilled (value : A)
| Rejected (reason : string).
Arguments Fulfilled {A} value.
Arguments Rejected {A} reason.

Definition is_fulfilled {A} (s : Settled A) : bool :=
  match s with Fulfilled _ => true | Rejected _ => false end.

(** The calls of [../services/hyperliquid] the views make. *)
Inductive Request :=
| fetchLeaderboard_ (limit : Z)
| fetchUserTrades_ (address : string)
| fetchWhales_ (minBalance : Q)
| fetchLivePositions_ (addresses : list string).

(** The data provider: how each call settles. *)
Record Provider := {
  fetchLeaderboard : Z -> Settled (list Trader.t);
  fetchUserTrades : string -> Settled TradeStats.t;
  fetchWhales : Q -> Settled (list Whale.t);
  fetchLivePositions : list string -> Settled (list LivePosition.t) }.

(** What an [async] function does, in order: it calls the provider (the
    event records whether the call was fulfilled), sets a piece of the
    state of its component ([S] is the type of the component's setters),
    or writes to the console. *)
Inductive Event (S : Type) :=
| Call (r : Request) (fulfilled : bool)
| SetState (s : S)
| ConsoleError (message reason : string).
Arguments Call {S} r fulfilled.
Arguments SetState {S} s.
Arguments ConsoleError {S} message reason.

(** A computation of an [async] function body: the events so far and how
    the body settles. *)
Definition M (S A : Type) : Type := list (Event S) * Settled A.

Definition ret {S A} (a : A) : M S A := ([], Fulfilled a).

Definition bind {S A B} (m : M S A) (k : A -> M S B) : M S B :=
  match m with
  | (t, Fulfilled a) => let '(t', r) := k a in (t ++ t', r)
  | (t, Rejected e) => (t, Rejected e)
  end.

Definition set {S} (s : S) : M S unit := ([SetState s], Fulfilled tt).

Definition console_error {S} (message reason : string) : M S unit :=
  ([ConsoleError message reason], Fulfilled tt).

(** [await call(...)]: the call is made and the body resumes with its
    value, or throws its rejection reason. *)
Definition await {S A} (r : Request) (outcome : Settled A) : M S A :=
  ([Call r (is_fulfilled outcome)], outcome).

(** [try { body } catch (err) { handler }] *)
Definition try_catch {S A} (body : M S A) (handler : string -> M S A) : M S A :=
  match body with
  | (t, Fulfilled a) => (t, Fulfilled a)
  | (t, Rejected e) => let '(t', r) := handler e in (t ++ t', r)
  end.

(** [try { body } finally { final }] *)
Definition try_finally {S A} (body : M S A) (final : M S unit) : M S A :=
  let '(t, r) := body in
  match final with
  | (t', Fulfilled _) => (t ++ t', r)
  | (t', Rejected e) => (t ++ t', Rejected e)
  end.

(** [for (const x of xs) { body }] with the loop's mutable local [acc]. *)
Fixpoint for_of {S A B} (xs : list A) (acc : B) (body : A -> B -> M S B) : M S B :=
  match xs with
  | [] => ret acc
  | x :: rest => bind (body x acc) (fun acc' => for_of rest acc' body)
  end.

Definition trace {S A} (m : M S A) : list (Event S) := fst m.

(** The provider calls of a trace, and whether one of them was rejected. *)
Definition is_call {S} (e : Event S) : bool :=
  match e with Call _ _ => true | _ => false end.

Definition is_rejection {S} (e : Event S) : bool :=
  match e with Call _ false => true | _ => false end.

Definition rejected {S} (t : list (Event S)) : bool := existsb is_rejection t.

Definition is_fulfilled_call {S} (e : Event S) : bool :=
  match e with Call _ true => true | _ => false end.

(** No provider call is made once a call was rejected: no retry. *)
Fixpoint no_call_after_rejection {S} (t : list (Event S)) : bool :=
  match t with
  | [] => true
  | e :: rest =>
      (if is_rejection e then negb (existsb is_call rest) else true)
      && no_call_after_rejection rest
  end.

(** The loading flag brackets the fetch: the trace starts by setting the
    flag ([on]), ends by clearing it ([off]), does not touch it in between
    ([sets_loading] tells the setters of the flag), and the provider calls
    lie in between. *)
Definition bracketed {S} (on off : S) (sets_loading : S -> bool)
    (t : list (Event S)) : Prop :=
  exists mid,
    t = SetState on :: mid ++ [SetState off]
    /\ existsb is_call mid = true
    /\ forallb
         (fun e => match e with SetState s => negb (sets_loading s) | _ => true end)
         mid = true.

(** The state of a component after the events of a trace, given what
    each of its setters does. *)
Definition run {S St} (apply : St -> S -> St) (st : St) (t : list (Event S)) : St :=
  fold_left
    (fun st e => match e with SetState s => apply st s | _ => st end) t st.

End Async.

Declare Scope async_scope.
Delimit Scope async_scope with async.
Notation "x <- m ;; k" := (Async.bind m (fun x => k))
  (at level 100, m at next level, right associativity) : async_scope.
Notation "m ;;; k" := (Async.bind m (fun _ => k))
  (at level 100, right associativity) : async_scope.

(** ** The per-view selection set

    [toggleSelectTrader] is written four times ([LivePositions],
    [TradeStatistics], [TopTraders], and [toggleSelectWhale] in
    [WhaleDetection]) with the same body. A handler copies the rendered
    [Set<string>], changes the copy, and passes it to the setter; it calls
    [onSelectWallet?.(address)] as it goes. [App] passes the callback to
    every view. *)

Module Selection.

(** What a selection handler does: the set it passes to
    [setSelectedTraders] and its calls of [onSelectWallet], in order. *)
Record Outcome := { selected : gset string; notified : list string }.

Definition toggle (selectedTraders : gset string) (address : string) : Outcome :=
  let newSelected := selectedTraders in
  if decide (address ∈ newSelected) then
    {| selected := newSelected ∖ {[address]}; notified := [] |}
  else
    {| selected := newSelected ∪ {[address]}; notified := [address] |}.

(** [setSelectedTraders(new Set())] *)
Definition deselectAll : Outcome := {| selected := ∅; notified := [] |}.

(** A sequence of toggle clicks: each click is an event of its own and
    runs on the set the previous one committed. The result is the last
    set and the calls of [onSelectWallet] of all the clicks. *)
Fixpoint toggles (selectedTraders : gset string) (clicks : list string) : Outcome :=
  match clicks with
  | [] => {| selected := selectedTraders; notified := [] |}
  | address :: rest =>
      let o := toggle selectedTraders address in
      let o' := toggles (selected o) rest in
      {| selected := selected o'; notified := notified o ++ notified o' |}
  end.

(** The notifications the specification expects of a select-all: the
    addresses of [xs] that the set [S] does not hold yet, each once, in the
    order of their first occurrence. The handlers do not compute it. *)
Fixpoint newly_added (S : gset string) (xs : list string) : list string :=
  match xs with
  | [] => []
  | x :: rest =>
      if decide (x ∈ S) then newly_added S rest
      else x :: newly_added (S ∪ {[x]}) rest
  end.

(** How many times an address was toggled. *)
Definition toggle_count (address : string) (clicks : list string) : nat :=
  length (List.filter (String.eqb address) clicks).

End Selection.

(** ** TradeStatistics.tsx *)

Module TradeStatistics.
Import Async.
Local Open Scope async_scope.

(** [Map<string, ExtendedTradeStats>]: the entries in insertion order;
    [set] on a key that is present replaces the value in place. *)
Definition StatsMap := list (string * ExtendedTradeStats.t).

Fixpoint Map_set (k : string) (v : ExtendedTradeStats.t) (m : StatsMap) : StatsMap :=
  match m with
  | [] => [(k, v)]
  | (k', v') :: r => if String.eqb k' k then (k, v) :: r else (k', v') :: Map_set k v r
  end.

Definition Map_values (m : StatsMap) : list ExtendedTradeStats.t := map snd m.

Inductive Tab := mostTrades | highestVolume | bestWinRate.

Record State := {
  tradeStats : StatsMap;
  loading : bool;
  activeTab : Tab;
  selectedTraders : gset string }.

Definition initial : State :=
  {| tradeStats := []; loading := true; activeTab := mostTrades; selectedTraders := ∅ |}.

Inductive Setter :=
| setTradeStats (m : StatsMap)
| setLoading (b : bool).

Definition apply (st : State) (s : Setter) : State :=
  match s with
  | setTradeStats m =>
      {| tradeStats := m; loading := loading st;
         activeTab := activeTab st; selectedTraders := selectedTraders st |}
  | setLoading b =>
      {| tradeStats := tradeStats st; loading := b;
         activeTab := activeTab st; selectedTraders := selectedTraders st |}
  end.

Definition sets_loading (s : Setter) : bool :=
  match s with setLoading _ => true | _ => false end.

(** The body of the [for (const address of addressesToFetch)] loop of
    [loadData], which fills the local [statsMap]. *)
Definition loadData_body (P : Provider) (leaderboardData : list Trader.t)
    (address : string) (statsMap : StatsMap) : M Setter StatsMap :=
  stats <- await (fetchUserTrades_ address) (fetchUserTrades P address) ;;
  let trader :=
    List.find (fun t => String.eqb (Trader.address t) address) leaderboardData in
  ret (Map_set address
         {| ExtendedTradeStats.stats := stats;
            ExtendedTradeStats.trader := trader |} statsMap).

Definition loadData (P : Provider) : M Setter unit :=
  set (setLoading true) ;;;
  try_finally
    (try_catch
       (leaderboardData <- await (fetchLeaderboard_ 100) (fetchLeaderboard P 100) ;;
        let addressesToFetch :=
          map Trader.address (JSArray.slice0 30 leaderboardData) in
        statsMap <- for_of addressesToFetch ([] : StatsMap)
                      (loadData_body P leaderboardData) ;;
        set (setTradeStats statsMap))
       (fun error => console_error "Error loading data:" error))
    (set (setLoading false)).

Definition sortedByMostTrades (tradeStats : StatsMap) : list ExtendedTradeStats.t :=
  JSArray.slice0 20
    (JSArray.sort
       (fun a b => (ExtendedTradeStats.totalTrades b - ExtendedTradeStats.totalTrades a)%Q)
       (Map_values tradeStats)).

Definition sortedByHighestVolume (tradeStats : StatsMap) : list ExtendedTradeStats.t :=
  JSArray.slice0 20
    (JSArray.sort
       (fun a b => (ExtendedTradeStats.totalVolume b - ExtendedTradeStats.totalVolume a)%Q)
       (Map_values tradeStats)).

Definition sortedByWinRate (tradeStats : StatsMap) : list ExtendedTradeStats.t :=
  JSArray.slice0 20
    (JSArray.sort
       (fun a b => (ExtendedTradeStats.winRate b - ExtendedTradeStats.winRate a)%Q)
       (List.filter (fun s => Qle_bool 10 (ExtendedTradeStats.totalTrades s))
          (Map_values tradeStats))).

Definition getCurrentData (st : State) : list ExtendedTradeStats.t :=
  match activeTab st with
  | mostTrades => sortedByMostTrades (tradeStats st)
  | highestVolume => sortedByHighestVolume (tradeStats st)
  | bestWinRate => sortedByWinRate (tradeStats st)
  end.

Definition toggleSelectTrader := Selection.toggle.

(** [selectAllVisible]: the [forEach] adds to the copy and calls
    [onSelectWallet] for every item. *)
Definition selectAllVisible (st : State) : Selection.Outcome :=
  let currentData := getCurrentData st in
  fold_left
    (fun o item =>
       {| Selection.selected :=
            Selection.selected o ∪ {[ExtendedTradeStats.address item]};
          Selection.notified :=
            Selection.notified o ++ [ExtendedTradeStats.address item] |})
    currentData
    {| Selection.selected := selectedTraders st; Selection.notified := [] |}.

End TradeStatistics.

(** ** TopTraders.tsx *)

Module TopTraders.
Import Async.
Local Open Scope async_scope.

Inductive FilterType := all | profitable | volume.
Inductive SortBy := pnl | by_volume | pnlRatio.

Record State := {
  traders : list Trader.t;
  loading : bool;
  error : option string;
  selectedTraders : gset string;
  filterType : FilterType;
  sortBy : SortBy;
  minPnl : Q;
  maxResults : Z }.

Definition initial : State :=
  {| traders := []; loading := true; error := None; selectedTraders := ∅;
     filterType := all; sortBy := pnl; minPnl := 0; maxResults := 50 |}.

Inductive Setter :=
| setTraders (l : list Trader.t)
| setLoading (b : bool)
| setError (e : option string).

Definition apply (st : State) (s : Setter) : State :=
  match s with
  | setTraders l =>
      {| traders := l; loading := loading st; error := error st;
         selectedTraders := selectedTraders st; filterType := filterType st;
         sortBy := sortBy st; minPnl := minPnl st; maxResults := maxResults st |}
  | setLoading b =>
      {| traders := traders st; loading := b; error := error st;
         selectedTraders := selectedTraders st; filterType := filterType st;
         sortBy := sortBy st; minPnl := minPnl st; maxResults := maxResults st |}
  | setError e =>
      {| traders := traders st; loading := loading st; error := e;
         selectedTraders := selectedTraders st; filterType := filterType st;
         sortBy := sortBy st; minPnl := minPnl st; maxResults := maxResults st |}
  end.

Definition sets_loading (s : Setter) : bool :=
  match s with setLoading _ => true | _ => false end.

(** [loadTraders] reads the filter and sort parameters of its render. *)
Definition loadTraders (P : Provider) (st : State) : M Setter unit :=
  set (setLoading true) ;;;
  set (setError None) ;;;
  try_finally
    (try_catch
       (data <- await (fetchLeaderboard_ (maxResults st))
                  (fetchLeaderboard P (maxResults st)) ;;
        let filtered := data in
        let filtered :=
          match filterType st with
          | profitable =>
              List.filter (fun t => negb (Qle_bool (Trader.pnl t) 0)) filtered
          | volume =>
              List.filter (fun t => negb (Qle_bool (Trader.volume t) 1000000)) filtered
          | all => filtered
          end in
        let filtered :=
          List.filter (fun t => Qle_bool (minPnl st) (Trader.pnl t)) filtered in
        let filtered :=
          JSArray.sort
            (fun a b =>
               match sortBy st with
               | pnl => Trader.pnl b - Trader.pnl a
               | by_volume => Trader.volume b - Trader.volume a
               | pnlRatio => Trader.pnlRatio b - Trader.pnlRatio a
               end%Q)
            filtered in
        set (setTraders (JSArray.slice0 (maxResults st) filtered)))
       (fun err => set (setError (Some "Error loading traders data"))))
    (set (setLoading false)).

Definition toggleSelectTrader := Selection.toggle.

(** [selectAll]: the new set is built from the listed traders alone. *)
Definition selectAll (st : State) : Selection.Outcome :=
  {| Selection.selected := list_to_set (map Trader.address (traders st));
     Selection.notified := map Trader.address (traders st) |}.

Definition deselectAll := Selection.deselectAll.

(** What the render shows of a failure: [{error && <p>{error}</p>}]. *)
Definition error_banner (st : State) : option string :=
  match error st with
  | Some EmptyString => None
  | e => e
  end.

End TopTraders.

(** ** WhaleDetection.tsx *)

Module WhaleDetection.
Import Async.
Local Open Scope async_scope.

Record State := {
  whales : list Whale.t;
  loading : bool;
  error : option string;
  selectedWhales : gset string;
  minBalance : Q }.

Definition initial : State :=
  {| whales := []; loading := true; error := None; selectedWhales := ∅;
     minBalance := 500000 |}.

Inductive Setter :=
| setWhales (l : list Whale.t)
| setLoading (b : bool)
| setError (e : option string).

Definition apply (st : State) (s : Setter) : State :=
  match s with
  | setWhales l =>
      {| whales := l; loading := loading st; error := error st;
         selectedWhales := selectedWhales st; minBalance := minBalance st |}
  | setLoading b =>
      {| whales := whales st; loading := b; error := error st;
         selectedWhales := selectedWhales st; minBalance := minBalance st |}
  | setError e =>
      {| whales := whales st; loading := loading st; error := e;
         selectedWhales := selectedWhales st; minBalance := minBalance st |}
  end.

Definition sets_loading (s : Setter) : bool :=
  match s with setLoading _ => true | _ => false end.

Definition loadWhales (P : Provider) (st : State) : M Setter unit :=
  set (setLoading true) ;;;
  set (setError None) ;;;
  try_finally
    (try_catch
       (data <- await (fetchWhales_ (minBalance st)) (fetchWhales P (minBalance st)) ;;
        set (setWhales data))
       (fun err => set (setError (Some "Error loading whale data"))))
    (set (setLoading false)).

Definition toggleSelectWhale := Selection.toggle.

Definition selectAll (st : State) : Selection.Outcome :=
  {| Selection.selected := list_to_set (map Whale.address (whales st));
     Selection.notified := map Whale.address (whales st) |}.

Definition deselectAll := Selection.deselectAll.

Definition error_banner (st : State) : option string :=
  match error st with
  | Some EmptyString => None
  | e => e
  end.

End WhaleDetection.

(** ** LivePositions.tsx *)

Module LivePositions.
Import Async.
Local Open Scope async_scope.

Inductive Tab := all | open | closed.

Record State := {
  positions : list LivePosition.t;
  selectedTraders : gset string;
  activeTab : Tab;
  autoRefresh : bool;
  lastUpdate : N;
  loading : bool }.

(** [mounted] is the time of the first render, [useState(new Date())]. *)
Definition initial (mounted : N) : State :=
  {| positions := []; selectedTraders := ∅; activeTab := all;
     autoRefresh := true; lastUpdate := mounted; loading := true |}.

Inductive Setter :=
| setPositions (l : list LivePosition.t)
| setLastUpdate (t : N)
| setLoading (b : bool).

Definition apply (st : State) (s : Setter) : State :=
  match s with
  | setPositions l =>
      {| positions := l; selectedTraders := selectedTraders st;
         activeTab := activeTab st; autoRefresh := autoRefresh st;
         lastUpdate := lastUpdate st; loading := loading st |}
  | setLastUpdate t =>
      {| positions := positions st; selectedTraders := selectedTraders st;
         activeTab := activeTab st; autoRefresh := autoRefresh st;
         lastUpdate := t; loading := loading st |}
  | setLoading b =>
      {| positions := positions st; selectedTraders := selectedTraders st;
         activeTab := activeTab st; autoRefresh := autoRefresh st;
         lastUpdate := lastUpdate st; loading := b |}
  end.

Definition sets_loading (s : Setter) : bool :=
  match s with setLoading _ => true | _ => false end.

(** [loadPositions]; [now] is the [new Date()] of a successful load. *)
Definition loadPositions (P : Provider) (now : N) : M Setter unit :=
  set (setLoading true) ;;;
  try_finally
    (try_catch
       (traders <- await (fetchLeaderboard_ 50) (fetchLeaderboard P 50) ;;
        let addresses := map Trader.address traders in
        livePositions <- await (fetchLivePositions_ addresses)
                           (fetchLivePositions P addresses) ;;
        set (setPositions livePositions) ;;;
        set (setLastUpdate now))
       (fun error => console_error "Error loading positions:" error))
    (set (setLoading false)).

Definition toggleSelectTrader := Selection.toggle.

End LivePositions.

(** ** Sample data

    Concrete inputs on which the properties below are evaluated. *)

Module Sample.

Definition clock : App.Clock :=
  {| App.Date_now := 1700000000123;
     App.toISOString := fun _ => "2023-11-14T22:13:20.123Z" |}.

Definition two_wallets : list App.SelectedWallet :=
  [{| App.address := "0xAb"; App.source := "Top Traders" |};
   {| App.address := "0xcd"; App.source := "Whale Detection" |}].

Definition one_wallet : list App.SelectedWallet :=
  [{| App.address := "0x1"; App.source := "Top Traders" |}].

Definition trader (address : string) : Trader.t :=
  {| Trader.address := address; Trader.pnl := 100; Trader.volume := 2000000;
     Trader.pnlRatio := 1 # 2 |}.

(** The leaderboard view listing A, B, A, C with nothing selected. *)
Definition top_ABAC : TopTraders.State :=
  {| TopTraders.traders := [trader "A"; trader "B"; trader "A"; trader "C"];
     TopTraders.loading := false; TopTraders.error := None;
     TopTraders.selectedTraders := ∅;
     TopTraders.filterType := TopTraders.all; TopTraders.sortBy := TopTraders.pnl;
     TopTraders.minPnl := 0; TopTraders.maxResults := 50 |}.

(** The leaderboard view listing 0xnew after a refresh, 0xold still
    selected from the list shown before. *)
Definition top_old_selected : TopTraders.State :=
  {| TopTraders.traders := [trader "0xnew"];
     TopTraders.loading := false; TopTraders.error := None;
     TopTraders.selectedTraders := {["0xold"]};
     TopTraders.filterType := TopTraders.all; TopTraders.sortBy := TopTraders.pnl;
     TopTraders.minPnl := 0; TopTraders.maxResults := 50 |}.

Definition stats (address : string) (totalTrades winRate : Q) : ExtendedTradeStats.t :=
  {| ExtendedTradeStats.stats :=
       {| TradeStats.address := address; TradeStats.totalTrades := totalTrades;
          TradeStats.totalVolume := 5000; TradeStats.winRate := winRate;
          TradeStats.totalPnl := 10 |};
     ExtendedTradeStats.trader := Some (trader address) |}.

(** The statistics view showing the one trader 0xA, already selected. *)
Definition stats_A_selected : TradeStatistics.State :=
  {| TradeStatistics.tradeStats := [("0xA", stats "0xA" 12 55)];
     TradeStatistics.loading := false;
     TradeStatistics.activeTab := TradeStatistics.mostTrades;
     TradeStatistics.selectedTraders := {["0xA"]} |}.

(** A provider whose every call is rejected. *)
Definition offline : Async.Provider :=
  {| Async.fetchLeaderboard := fun _ => Async.Rejected "Network Error";
     Async.fetchUserTrades := fun _ => Async.Rejected "Network Error";
     Async.fetchWhales := fun _ => Async.Rejected "Network Error";
     Async.fetchLivePositions := fun _ => Async.Rejected "Network Error" |}.

(** A provider whose leaderboard answers and whose other calls are rejected. *)
Definition leaderboard_only : Async.Provider :=
  {| Async.fetchLeaderboard := fun _ => Async.Fulfilled [trader "0xA"; trader "0xB"];
     Async.fetchUserTrades := fun _ => Async.Rejected "Network Error";
     Async.fetchWhales := fun _ => Async.Rejected "Network Error";
     Async.fetchLivePositions := fun _ => Async.Rejected "Network Error" |}.

(** Views that hold fetched data and are not loading. *)
Definition top_idle : TopTraders.State :=
  {| TopTraders.traders := [trader "0xA"];
     TopTraders.loading := false; TopTraders.error := None;
     TopTraders.selectedTraders := ∅;
     TopTraders.filterType := TopTraders.all; TopTraders.sortBy := TopTraders.pnl;
     TopTraders.minPnl := 0; TopTraders.maxResults := 50 |}.

Definition whale_idle : WhaleDetection.State :=
  {| WhaleDetection.whales :=
       [{| Whale.address := "0xW"; Whale.balance := 900000; Whale.pnl := 5 |}];
     WhaleDetection.loading := false; WhaleDetection.error := None;
     WhaleDetection.selectedWhales := ∅; WhaleDetection.minBalance := 500000 |}.

Definition stats_idle : TradeStatistics.State :=
  {| TradeStatistics.tradeStats := [("0xA", stats "0xA" 12 55)];
     TradeStatistics.loading := false;
     TradeStatistics.activeTab := TradeStatistics.mostTrades;
     TradeStatistics.selectedTraders := ∅ |}.

Definition live_idle : LivePositions.State :=
  {| LivePositions.positions :=
       [{| LivePosition.address := "0xA"; LivePosition.status := "open";
           LivePosition.pnl := 7 |}];
     LivePositions.selectedTraders := ∅; LivePositions.activeTab := LivePositions.all;
     LivePositions.autoRefresh := true; LivePositions.lastUpdate := 1700000000000;
     LivePositions.loading := false |}.

(** The time of a refresh of the live-positions view. *)
Definition refresh_time : N := 1700000030000.

(** The clock one minute later. *)
Definition later_clock : App.Clock :=
  {| App.Date_now := 1700000060000;
     App.toISOString := fun _ => "2023-11-14T22:14:20.000Z" |}.

(** The leaderboard view listing one wallet under two casings of its
    address, with nothing selected. *)
Definition top_two_casings : TopTraders.State :=
  {| TopTraders.traders := [trader "0xAB"; trader "0xab"];
     TopTraders.loading := false; TopTraders.error := None;
     TopTraders.selectedTraders := ∅;
     TopTraders.filterType := TopTraders.all; TopTraders.sortBy := TopTraders.pnl;
     TopTraders.minPnl := 0; TopTraders.maxResults := 50 |}.

(** Fetched statistics of four traders; the second has nine trades. *)
Definition four_stats : TradeStatistics.StatsMap :=
  [("0x1", stats "0x1" 12 55); ("0x2", stats "0x2" 9 99);
   ("0x3", stats "0x3" 10 60); ("0x4", stats "0x4" 30 55)].

End Sample.

(** ** The views and the aggregator together

    [App] gives each view the prop
    [onSelectWallet={(addr) => handleSelectWallet(addr, source)}], a closure
    of the render of [App]. *)

Module Aggregate.

(** The buttons of the wallet panel and the additions coming from a view,
    one event each, an addition being the one call of its event. *)
Inductive Op :=
| Add (address source : string)
| Remove (address : string)
| Clear.

Section Batches.
(** The built-in [String.prototype.toLowerCase]. *)
Variable toLowerCase : string -> string.

Definition onSelectWallet (selectedWallets : list App.SelectedWallet)
    (source addr : string) : list App.Effect :=
  App.handleSelectWallet toLowerCase selectedWallets addr source.

(** One event of a view: its calls of [onSelectWallet], in order, all made
    on the closure of the same render of [App]; React commits the queued
    updates afterwards. *)
Definition view_event (selectedWallets : list App.SelectedWallet)
    (source : string) (notified : list string) : list App.SelectedWallet :=
  App.commit selectedWallets
    (flat_map (onSelectWallet selectedWallets source) notified).


Definition step (selectedWallets : list App.SelectedWallet) (op : Op)
    : list App.SelectedWallet :=
  match op with
  | Add a s => App.add toLowerCase selectedWallets a s
  | Remove a => App.remove toLowerCase selectedWallets a
  | Clear => App.clear selectedWallets
  end.

Definition steps (selectedWallets : list App.SelectedWallet) (ops : list Op)
    : list App.SelectedWallet :=
  fold_left step ops selectedWallets.

(** The address an entry is compared by. *)
Definition key (w : App.SelectedWallet) : string := toLowerCase (App.address w).

(** No two entries have the same address up to letter case. *)
Definition unique (selectedWallets : list App.SelectedWallet) : Prop :=
  NoDup (map key selectedWallets).

End Batches.

(** The entry [handleSelectWallet] appends. *)
Definition entry (source addr : string) : App.SelectedWallet :=
  {| App.address := addr; App.source := source |}.

(** The row the csv export writes for the [i]-th wallet, without its line
    feed. *)
Definition csv_row (clock : App.Clock) (i : nat) (w : App.SelectedWallet) : string :=
  App.address w ++ "," ++ App.source w ++ "," ++ App.toISOString clock i.

Definition csv_header : string := "Address,Source,Selected At".

(** The rows of the wallets from the [i]-th on, a line feed after each. *)
Fixpoint csv_text (clock : App.Clock) (i : nat) (ws : list App.SelectedWallet) : string :=
  match ws with
  | [] => EmptyString
  | w :: rest => csv_row clock i w ++ JS.LF ++ csv_text clock (S i) rest
  end.

End Aggregate.

(** ** TradeStatistics.tsx and TopTraders.tsx: further derived values *)

Module StatsView.

(** [sortedByBestPnl], computed on every render beside the three rankings
    of the tabs. *)
Definition sortedByBestPnl (tradeStats : TradeStatistics.StatsMap)
    : list ExtendedTradeStats.t :=
  JSArray.slice0 20
    (JSArray.sort
       (fun a b => (ExtendedTradeStats.totalPnl b - ExtendedTradeStats.totalPnl a)%Q)
       (TradeStatistics.Map_values tradeStats)).

(** The keys of the [Map], in insertion order. *)
Definition Map_keys (m : TradeStatistics.StatsMap) : list string := map fst m.

(** The entries with at least 10 trades, which [sortedByWinRate] ranks. *)
Definition eligible (tradeStats : TradeStatistics.StatsMap) : list ExtendedTradeStats.t :=
  List.filter (fun s => Qle_bool 10 (ExtendedTradeStats.totalTrades s))
    (TradeStatistics.Map_values tradeStats).

(** The entries of a list whose key equals [v]. *)
Definition with_key {A : Type} (key : A -> Q) (v : Q) (l : list A) : list A :=
  List.filter (fun x => Qeq_bool (key x) v) l.

(** The entry [loadData] stores for an address. *)
Definition entry (leaderboardData : list Trader.t) (address : string)
    (stats : TradeStats.t) : ExtendedTradeStats.t :=
  {| ExtendedTradeStats.stats := stats;
     ExtendedTradeStats.trader :=
       List.find (fun t => String.eqb (Trader.address t) address) leaderboardData |}.

End StatsView.

Module TopTradersView.

(** The key [loadTraders] sorts by. *)
Definition sort_key (sortBy : TopTraders.SortBy) (t : Trader.t) : Q :=
  match sortBy with
  | TopTraders.pnl => Trader.pnl t
  | TopTraders.by_volume => Trader.volume t
  | TopTraders.pnlRatio => Trader.pnlRatio t
  end.

(** The traders [loadTraders] keeps of the fetched ones, before it sorts
    and cuts them. *)
Definition kept (st : TopTraders.State) (t : Trader.t) : Prop :=
  (TopTraders.minPnl st <= Trader.pnl t)%Q
  /\ (TopTraders.filterType st = TopTraders.profitable -> (0 < Trader.pnl t)%Q)
  /\ (TopTraders.filterType st = TopTraders.volume -> (1000000 < Trader.volume t)%Q).

(** The two filters of [loadTraders] as one test. *)
Definition kept_bool (st : TopTraders.State) (t : Trader.t) : bool :=
  match TopTraders.filterType st with
  | TopTraders.profitable => negb (Qle_bool (Trader.pnl t) 0)
  | TopTraders.volume => negb (Qle_bool (Trader.volume t) 1000000)
  | TopTraders.all => true
  end
  && Qle_bool (TopTraders.minPnl st) (Trader.pnl t).

(** The header checkbox:
    [checked={selectedTraders.size === traders.length && traders.length > 0}]. *)
Definition header_checked (selectedTraders : gset string) (traders : list Trader.t)
    : bool :=
  Nat.eqb (size selectedTraders) (length traders) && Nat.ltb 0 (length traders).

End TopTradersView.

(** ** LivePositions.tsx: the derived lists *)

Module LiveView.

Definition filteredPositions (activeTab : LivePositions.Tab)
    (positions : list LivePosition.t) : list LivePosition.t :=
  List.filter
    (fun pos =>
       match activeTab with
       | LivePositions.open => String.eqb (LivePosition.status pos) "open"
       | LivePositions.closed => String.eqb (LivePosition.status pos) "closed"
       | LivePositions.all => true
       end)
    positions.

Definition openPositions (positions : list LivePosition.t) : list LivePosition.t :=
  List.filter (fun p => String.eqb (LivePosition.status p) "open") positions.

Definition closedPositions (positions : list LivePosition.t) : list LivePosition.t :=
  List.filter (fun p => String.eqb (LivePosition.status p) "closed") positions.

(** How an expression completes: with a value, or by throwing a [TypeError]. *)
Inductive Completion (A : Type) :=
| Normal (value : A)
| TypeError.
Arguments Normal {A} value.
Arguments TypeError {A}.

(** The callback of the [reduce] that groups the positions by wallet. The
    accumulator is a plain object: [acc[key]] reads an own property (always
    an array here, hence truthy) or, failing that, a property inherited
    from [Object.prototype], which is truthy and has no [push]. [inherited]
    tells the names of the inherited properties ([constructor], [toString],
    [__proto__], ...). *)
Definition group_step (inherited : string -> bool)
    (acc : gmap string (list LivePosition.t)) (pos : LivePosition.t)
    : Completion (gmap string (list LivePosition.t)) :=
  match acc !! LivePosition.address pos with
  | Some group => Normal (<[LivePosition.address pos := group ++ [pos]]> acc)
  | None =>
      if inherited (LivePosition.address pos) then TypeError
      else Normal (<[LivePosition.address pos := [pos]]> acc)
  end.

Fixpoint reduce (inherited : string -> bool) (positions : list LivePosition.t)
    (acc : gmap string (list LivePosition.t))
    : Completion (gmap string (list LivePosition.t)) :=
  match positions with
  | [] => Normal acc
  | pos :: rest =>
      match group_step inherited acc pos with
      | Normal acc' => reduce inherited rest acc'
      | TypeError => TypeError
      end
  end.

Definition positionsByWallet (inherited : string -> bool)
    (filteredPositions : list LivePosition.t)
    : Completion (gmap string (list LivePosition.t)) :=
  reduce inherited filteredPositions ∅.

(** The positions of one wallet, in the order of the list. *)
Definition of_wallet (address : string) (positions : list LivePosition.t)
    : list LivePosition.t :=
  List.filter (fun p => String.eqb (LivePosition.address p) address) positions.

(** The group of a wallet once further positions of it are pushed: an
    existing group grows, a new one is made by the first position. *)
Definition combine_group (own : option (list LivePosition.t))
    (more : list LivePosition.t) : option (list LivePosition.t) :=
  match own, more with
  | Some group, _ => Some (group ++ more)
  | None, [] => None
  | None, _ => Some more
  end.

(** The time values, in milliseconds, that a [Date] can hold and whose
    differences a [number] holds exactly: up to 2^52 either way. *)
Definition valid_time (t : Z) : Prop := (- 4503599627370496 <= t <= 4503599627370496)%Z.

(** [formatDuration(startTime, endTime?)] on integer time values; [now] is
    the [new Date()] taken when [endTime] is missing or 0. The quotients
    are [Math.floor] of a division, the remainders are those of [%], which
    have the sign of the dividend. *)
Definition formatDuration (now startTime : Z) (endTime : option Z) : string :=
  let end_ :=
    match endTime with
    | Some e => if (e =? 0)%Z then now else e
    | None => now
    end in
  let diff := (end_ - startTime)%Z in
  let hours := (diff / (1000 * 60 * 60))%Z in
  let minutes := (Z.rem diff (1000 * 60 * 60) / (1000 * 60))%Z in
  let seconds := (Z.rem diff (1000 * 60) / 1000)%Z in
  if (hours >? 0)%Z then (pretty hours ++ "h " ++ pretty minutes ++ "m")%string
  else if (minutes >? 0)%Z then (pretty minutes ++ "m " ++ pretty seconds ++ "s")%string
  else (pretty seconds ++ "s")%string.

(** [getTimeAgo(timestamp)]; [now] is [Date.now()]. *)
Definition getTimeAgo (now timestamp : Z) : string :=
  let diff := (now - timestamp)%Z in
  let minutes := (diff / (1000 * 60))%Z in
  let hours := (diff / (1000 * 60 * 60))%Z in
  let days := (diff / (1000 * 60 * 60 * 24))%Z in
  if (days >? 0)%Z then (pretty days ++ "d ago")%string
  else if (hours >? 0)%Z then (pretty hours ++ "h ago")%string
  else if (minutes >? 0)%Z then (pretty minutes ++ "m ago")%string
  else "Just now".

End LiveView.

(** ** WhaleDetection.tsx: the positions of an expanded whale *)

Module Position.
Record t := {
  coin : string; side : string; size : Q; entryPrice : Q; markPrice : Q; pnl : Q }.
End Position.

Module WhalePositions.

Record State := {
  expandedWhale : option string;
  whalePositions : gmap string (list Position.t);
  loadingPositions : gset string }.

Definition initial : State :=
  {| expandedWhale := None; whalePositions := ∅; loadingPositions := ∅ |}.

(** What the two handlers do, in order: queued state updates (the cache and
    the loading set are set through updaters on [prev]), the call of
    [fetchUserPositions] with how it settled, and a console message. *)
Inductive Effect :=
| setExpandedWhale (v : option string)
| setWhalePositions
    (updater : gmap string (list Position.t) -> gmap string (list Position.t))
| setLoadingPositions (updater : gset string -> gset string)
| fetchUserPositions_ (address : string) (fulfilled : bool)
| consoleError (message reason : string).

(** [whalePositions[address]] as a condition: an own property holds an
    array, which is truthy; otherwise a property inherited from
    [Object.prototype] is read ([inherited] tells their names). *)
Definition cached (inherited : string -> bool)
    (whalePositions : gmap string (list Position.t)) (address : string) : bool :=
  match whalePositions !! address with
  | Some _ => true
  | None => inherited address
  end.

Definition loadWhalePositions (inherited : string -> bool)
    (fetchUserPositions : string -> Async.Settled (list Position.t))
    (st : State) (address : string) : list Effect :=
  if cached inherited (whalePositions st) address
     || bool_decide (address ∈ loadingPositions st)
  then []
  else
    setLoadingPositions (fun prev => prev ∪ {[address]})
    :: match fetchUserPositions address with
       | Async.Fulfilled positions =>
           [fetchUserPositions_ address true;
            setWhalePositions (fun prev => <[address := positions]> prev)]
       | Async.Rejected err =>
           [fetchUserPositions_ address false;
            consoleError "Error loading positions:" err]
       end
    ++ [setLoadingPositions (fun prev => prev ∖ {[address]})].

Definition toggleExpandWhale (inherited : string -> bool)
    (fetchUserPositions : string -> Async.Settled (list Position.t))
    (st : State) (address : string) : list Effect :=
  if bool_decide (expandedWhale st = Some address) then [setExpandedWhale None]
  else
    setExpandedWhale (Some address)
    :: loadWhalePositions inherited fetchUserPositions st address.

Definition apply (st : State) (e : Effect) : State :=
  match e with
  | setExpandedWhale v =>
      {| expandedWhale := v; whalePositions := whalePositions st;
         loadingPositions := loadingPositions st |}
  | setWhalePositions u =>
      {| expandedWhale := expandedWhale st; whalePositions := u (whalePositions st);
         loadingPositions := loadingPositions st |}
  | setLoadingPositions u =>
      {| expandedWhale := expandedWhale st; whalePositions := whalePositions st;
         loadingPositions := u (loadingPositions st) |}
  | fetchUserPositions_ _ _ | consoleError _ _ => st
  end.

(** The state once the effects of a handler are applied, in order. *)
Definition run (st : State) (effects : list Effect) : State :=
  fold_left apply effects st.

(** The calls of the provider among the effects. *)
Definition fetches (effects : list Effect) : list string :=
  omap (fun e => match e with fetchUserPositions_ a _ => Some a | _ => None end) effects.

End WhalePositions.

(** ** More sample data *)

Module Fixture.

Definition trader (address : string) (pnl volume : Q) : Trader.t :=
  {| Trader.address := address; Trader.pnl := pnl; Trader.volume := volume;
     Trader.pnlRatio := 1 |}.

Definition leaderboard : list Trader.t :=
  [trader "0xA" 50 3000000; trader "0xB" (-20) 9000000; trader "0xC" 700 500;
   trader "0xA" 50 3000000].

Definition position (address status : string) (pnl : Q) : LivePosition.t :=
  {| LivePosition.address := address; LivePosition.status := status;
     LivePosition.pnl := pnl |}.

Definition positions : list LivePosition.t :=
  [position "0xA" "open" 5; position "0xB" "closed" (-3); position "0xA" "closed" 2;
   position "0xC" "liquidated" 0].

(** A provider that answers every call. *)
Definition online : Async.Provider :=
  {| Async.fetchLeaderboard := fun _ => Async.Fulfilled leaderboard;
     Async.fetchUserTrades :=
       fun address =>
         Async.Fulfilled
           {| TradeStats.address := address; TradeStats.totalTrades := 12;
              TradeStats.totalVolume := 100; TradeStats.winRate := 50;
              TradeStats.totalPnl := 1 |};
     Async.fetchWhales := fun _ => Async.Fulfilled [];
     Async.fetchLivePositions := fun _ => Async.Fulfilled positions |}.

(** The leaderboard view set to profitable traders, sorted by profit. *)
Definition top_profitable : TopTraders.State :=
  {| TopTraders.traders := []; TopTraders.loading := false;
     TopTraders.error := Some "Error loading traders data";
     TopTraders.selectedTraders := ∅;
     TopTraders.filterType := TopTraders.profitable;
     TopTraders.sortBy := TopTraders.pnl;
     TopTraders.minPnl := 10; TopTraders.maxResults := 50 |}.

(** The names an object literal inherits, as far as the samples go. *)
Definition inherited (name : string) : bool :=
  String.eqb name "constructor" || String.eqb name "toString"
  || String.eqb name "__proto__".

Definition whale_position : Position.t :=
  {| Position.coin := "BTC"; Position.side := "long"; Position.size := 2;
     Position.entryPrice := 60000; Position.markPrice := 61000; Position.pnl := 2000 |}.

Definition positions_online (address : string) : Async.Settled (list Position.t) :=
  Async.Fulfilled [whale_position].

Definition positions_offline (address : string) : Async.Settled (list Position.t) :=
  Async.Rejected "Network Error".

End Fixture.

(** * Properties *)

(** ** Wallet aggregator *)

Section Aggregator.
Import App.
Variable toLowerCase : string -> string.

Lemma find_same_address_listed ws a :
  (exists w, List.find (same_address toLowerCase a) ws = Some w) <-> listed toLowerCase ws a.
Proof.
  unfold listed. split.
  - intros [w Hw]. apply find_some in Hw as [Hin Heq]. exists w. split; [done|].
    unfold same_address in Heq. by apply String.eqb_eq in Heq.
  - intros [w [Hin Heq]].
    destruct (List.find (same_address toLowerCase a) ws) as [w'|] eqn:Hf; [by exists w'|].
    exfalso. eapply find_none in Hf; [|exact Hin].
    unfold same_address in Hf. apply String.eqb_neq in Hf. done.
Qed.

(** What one call of [handleSelectWallet] queues, whatever list the
    update is later applied to. *)
Lemma handleSelectWallet_effects ws a s :
  (listed toLowerCase ws a /\ handleSelectWallet toLowerCase ws a s = [])
  \/ (~ listed toLowerCase ws a /\ exists u,
        handleSelectWallet toLowerCase ws a s = [setSelectedWallets u]
        /\ forall prev, u prev = prev ++ [{| address := a; source := s |}]).
Proof.
  unfold handleSelectWallet.
  destruct (List.find (same_address toLowerCase a) ws) as [w|] eqn:Hf.
  - left. split; [|done]. apply find_same_address_listed. by exists w.
  - right. split.
    + intros H. apply find_same_address_listed in H as [w Hw]. congruence.
    + eexists. split; [reflexivity|done].
Qed.

Lemma add_listed ws a s : listed toLowerCase ws a -> add toLowerCase ws a s = ws.
Proof.
  intros H. unfold add.
  destruct (handleSelectWallet_effects ws a s) as [[_ ->]|[Hn _]]; [done|tauto].
Qed.

Lemma add_fresh ws a s :
  ~ listed toLowerCase ws a -> add toLowerCase ws a s = ws ++ [{| address := a; source := s |}].
Proof.
  intros H. unfold add.
  destruct (handleSelectWallet_effects ws a s) as [[Hl _]|[_ [u [-> Hu]]]]; [tauto|].
  simpl. apply Hu.
Qed.

End Aggregator.

(** The built-in on ASCII strings is a lowering function that lowers
    ASCII. *)
Lemma lowers_ascii_ascii : JS.lowers_ascii JS.ascii_toLowerCase.
Proof. intros s _. reflexivity. Qed.

(** C1 at a select-all. The test of [handleSelectWallet] reads the list of
    the render the handler belongs to, and the calls a select-all makes
    within one event all read that same list: they are not tested against
    each other. With the leaderboard listing 0xAB and 0xab and an empty
    aggregate list, Select All calls [handleSelectWallet] for 0xAB and then
    for 0xab; whatever the lowering function, both are appended. The second
    call is for an address that the entry of the first has up to letter
    case, and the list ends up with two entries for one address. *)
Theorem select_all_appends_both_casings :
  forall toLowerCase,
    Aggregate.view_event toLowerCase [] "Top Traders"
      (Selection.notified (TopTraders.selectAll Sample.top_two_casings))
    = [{| App.address := "0xAB"; App.source := "Top Traders" |};
       {| App.address := "0xab"; App.source := "Top Traders" |}]
    /\ (JS.lowers_ascii toLowerCase ->
        App.listed toLowerCase
          [{| App.address := "0xAB"; App.source := "Top Traders" |}] "0xab"
        /\ ~ Aggregate.unique toLowerCase
               [{| App.address := "0xAB"; App.source := "Top Traders" |};
                {| App.address := "0xab"; App.source := "Top Traders" |}]).
Proof.
  intros toLowerCase. split; [reflexivity|]. intros Hlow. split.
  - eexists. split; [by left|]. simpl. rewrite !Hlow by reflexivity. reflexivity.
  - unfold Aggregate.unique, Aggregate.key. simpl.
    rewrite !Hlow by reflexivity. simpl.
    rewrite NoDup_cons. intros [Hin _]. apply Hin. by left.
Qed.

(** C1 at the select-all, with the built-in on ASCII strings. *)
Lemma select_all_appends_both_casings_witness :
  Aggregate.view_event JS.ascii_toLowerCase [] "Top Traders" ["0xAB"; "0xab"]
  = [{| App.address := "0xAB"; App.source := "Top Traders" |};
     {| App.address := "0xab"; App.source := "Top Traders" |}]
  /\ App.listed JS.ascii_toLowerCase
       [{| App.address := "0xAB"; App.source := "Top Traders" |}] "0xab"
  /\ ~ Aggregate.unique JS.ascii_toLowerCase
         [{| App.address := "0xAB"; App.source := "Top Traders" |};
          {| App.address := "0xab"; App.source := "Top Traders" |}].
Proof.
  destruct (select_all_appends_both_casings JS.ascii_toLowerCase) as [Hboth Hdup].
  exact (conj Hboth (Hdup lowers_ascii_ascii)).
Defined.

(** ** Export *)

Section ExportFacts.
Import JS App.

Lemma split_lines_one_line x : one_line x = true -> split_lines x = [x].
Proof.
  induction x as [|c r IH]; simpl; [done|].
  intros H. apply andb_prop in H as [Hc Hr].
  destruct (Ascii.eqb c (ascii_of_nat 10)); [done|].
  by rewrite (IH Hr).
Qed.

Lemma split_lines_line x rest :
  one_line x = true -> split_lines (x ++ LF ++ rest) = x :: split_lines rest.
Proof.
  induction x as [|c r IH]; simpl; [done|].
  intros H. apply andb_prop in H as [Hc Hr].
  destruct (Ascii.eqb c (ascii_of_nat 10)); [done|].
  by rewrite (IH Hr).
Qed.

(** The lines of a newline-joined text are the joined strings: no line is
    added before, between or after them. *)
Lemma split_lines_join l :
  l <> [] -> forallb one_line l = true -> split_lines (join LF l) = l.
Proof.
  induction l as [|x [|y r] IH]; [done| |].
  - simpl. intros _ H. apply andb_prop in H as [Hx _]. by apply split_lines_one_line.
  - intros _ H. change (forallb one_line (x :: y :: r))
      with (one_line x && forallb one_line (y :: r)) in H.
    apply andb_prop in H as [Hx Hr].
    change (join LF (x :: y :: r)) with (x ++ LF ++ join LF (y :: r))%string.
    rewrite split_lines_line by done. f_equal. by apply IH.
Qed.

Lemma digit_value_pretty d : (d < 10)%N -> digit_value (pretty_N_char d) = Some d.
Proof.
  intros H.
  assert (d = 0 \/ d = 1 \/ d = 2 \/ d = 3 \/ d = 4 \/ d = 5 \/ d = 6 \/ d = 7
          \/ d = 8 \/ d = 9)%N as H' by lia.
  repeat (destruct H' as [->|H']; [reflexivity|]). subst d. reflexivity.
Qed.

(** Reading the digits written in front of [s] continues from the number
    they denote. *)
Lemma decimal_from_pretty_go x :
  exists k, forall acc s,
    decimal_from acc (pretty_N_go x s) = decimal_from (acc * 10 ^ k + x)%N s.
Proof.
  induction (N.lt_wf_0 x) as [x _ IH].
  destruct (N.eq_dec x 0%N) as [->|Hx].
  - exists 0%N. intros acc s. rewrite pretty_N_go_0. f_equal. lia.
  - destruct (IH (x / 10)%N) as [k Hk]; [apply N.div_lt; lia|].
    exists (N.succ k). intros acc s.
    rewrite pretty_N_go_step by lia. rewrite Hk. simpl.
    rewrite digit_value_pretty by (apply N.mod_lt; lia).
    f_equal. rewrite N.pow_succ_r'.
    pose proof (N.div_mod' x 10%N) as Hdm. lia.
Qed.

(** The digits [number_to_string] writes denote the number. *)
Lemma parse_decimal_number_to_string n :
  parse_decimal (number_to_string n) = Some n.
Proof.
  unfold number_to_string, pretty, pretty_N.
  destruct (decide (n = 0%N)) as [->|Hn]; [reflexivity|].
  destruct (decimal_from_pretty_go n) as [k Hk].
  specialize (Hk 0%N EmptyString). rewrite N.mul_0_l, N.add_0_l in Hk.
  change (decimal_from n EmptyString) with (Some n) in Hk.
  destruct (pretty_N_go n EmptyString) as [|c r] eqn:E.
  - simpl in Hk. congruence.
  - exact Hk.
Qed.

Lemma string_length_app (a b : string) :
  String.length (a ++ b) = String.length a + String.length b.
Proof.
  induction a as [|x a IH]; [done|].
  change (S (String.length (a ++ b)) = S (String.length a + String.length b)).
  by rewrite IH.
Qed.

Lemma string_app_inv_tail (c a b : string) : (a ++ c = b ++ c)%string -> a = b.
Proof.
  revert b. induction a as [|x a IH]; intros [|y b] H.
  - done.
  - apply (f_equal String.length) in H.
    rewrite !string_length_app in H. simpl in H. lia.
  - apply (f_equal String.length) in H.
    rewrite !string_length_app in H. simpl in H. lia.
  - change (String x (a ++ c) = String y (b ++ c))%string in H.
    injection H as -> H. f_equal. by apply IH.
Qed.

(** Two numbers written the same way are the same number. *)
Lemma number_to_string_inj n m : number_to_string n = number_to_string m -> n = m.
Proof.
  intros H. apply (f_equal parse_decimal) in H.
  rewrite !parse_decimal_number_to_string in H. congruence.
Qed.

Lemma saveWalletsToFile_nonempty ws clock format :
  ws <> [] ->
  saveWalletsToFile ws clock format =
    [download
       (if String.eqb format "json" then
          {| content := JSON_stringify ws;
             filename := "hyperliquid_wallets_" ++ number_to_string (Date_now clock) ++ ".json";
             mimeType := "application/json" |}
        else if String.eqb format "csv" then
          {| content := csv_rows clock 0 ws ("Address,Source,Selected At" ++ LF);
             filename := "hyperliquid_wallets_" ++ number_to_string (Date_now clock) ++ ".csv";
             mimeType := "text/csv" |}
        else
          {| content := join LF (map address ws);
             filename := "wallet_addresses_" ++ number_to_string (Date_now clock) ++ ".txt";
             mimeType := "text/plain" |})].
Proof. destruct ws; [done|]. reflexivity. Qed.

End ExportFacts.

(** C6. On a non-empty list, [export("txt")] hands the browser one file
    named [wallet_addresses_<epoch-ms>.txt] whose content is the selected
    addresses, in insertion order and with their casing, joined by single
    newlines: its lines are exactly the addresses (for addresses that hold
    no newline), with nothing after the last one. The csv and json exports
    are named [hyperliquid_wallets_<epoch-ms>.csv] and [.json]. The
    [<epoch-ms>] of the three names is the decimal writing of [Date.now()]:
    read as a decimal number it is [Date.now()], so exports made at
    different milliseconds get different names. On the entries 0x1 and 0x2
    the txt content is 0x1, a newline, 0x2. *)
Theorem export_txt_content_and_filenames :
  (forall ws clock, ws <> [] ->
     let now := JS.number_to_string (App.Date_now clock) in
     App.downloads (App.saveWalletsToFile ws clock "txt")
       = [{| App.content := JS.join JS.LF (map App.address ws);
             App.filename := "wallet_addresses_" ++ now ++ ".txt";
             App.mimeType := "text/plain" |}]
     /\ (forallb JS.one_line (map App.address ws) = true ->
         JS.split_lines (JS.join JS.LF (map App.address ws)) = map App.address ws)
     /\ map App.filename (App.downloads (App.saveWalletsToFile ws clock "csv"))
        = [("hyperliquid_wallets_" ++ now ++ ".csv")%string]
     /\ map App.filename (App.downloads (App.saveWalletsToFile ws clock "json"))
        = [("hyperliquid_wallets_" ++ now ++ ".json")%string]
     /\ JS.parse_decimal now = Some (App.Date_now clock))
  /\ (forall s1 s2 clock,
        map App.content
          (App.downloads
             (App.saveWalletsToFile
                [{| App.address := "0x1"; App.source := s1 |};
                 {| App.address := "0x2"; App.source := s2 |}] clock "txt"))
        = [("0x1" ++ JS.LF ++ "0x2")%string])
  /\ (forall ws clock clock' format,
        ws <> [] ->
        map App.filename (App.downloads (App.saveWalletsToFile ws clock format))
        = map App.filename (App.downloads (App.saveWalletsToFile ws clock' format)) ->
        App.Date_now clock = App.Date_now clock').
Proof.
  split; [|split].
  - intros ws clock Hne now.
    rewrite !saveWalletsToFile_nonempty by done. simpl.
    repeat split; try reflexivity.
    + intros H. apply split_lines_join; [|done].
      destruct ws; [done|discriminate].
    + apply parse_decimal_number_to_string.
  - intros s1 s2 clock. reflexivity.
  - intros ws clock clock' format Hne.
    rewrite !saveWalletsToFile_nonempty by done. simpl.
    destruct (String.eqb format "json"); [|destruct (String.eqb format "csv")];
      simpl; intros H; injection H as H;
      apply String.app_inj in H; apply string_app_inv_tail in H;
      by apply number_to_string_inj.
Qed.

(** The files of C6 on two wallets picked in two views, and the name of
    the txt file a minute later. *)
Lemma export_txt_content_and_filenames_witness :
  App.downloads (App.saveWalletsToFile Sample.two_wallets Sample.clock "txt")
    = [{| App.content := "0xAb" ++ JS.LF ++ "0xcd";
          App.filename := "wallet_addresses_1700000000123.txt";
          App.mimeType := "text/plain" |}]
  /\ JS.split_lines ("0xAb" ++ JS.LF ++ "0xcd") = ["0xAb"; "0xcd"]
  /\ map App.filename
       (App.downloads (App.saveWalletsToFile Sample.two_wallets Sample.clock "csv"))
     = ["hyperliquid_wallets_1700000000123.csv"]
  /\ map App.filename
       (App.downloads (App.saveWalletsToFile Sample.two_wallets Sample.clock "json"))
     = ["hyperliquid_wallets_1700000000123.json"]
  /\ JS.parse_decimal "1700000000123" = Some 1700000000123%N
  /\ map App.filename
       (App.downloads (App.saveWalletsToFile Sample.two_wallets Sample.later_clock "txt"))
     = ["wallet_addresses_1700000060000.txt"].
Proof.
  destruct (proj1 export_txt_content_and_filenames Sample.two_wallets Sample.clock
              ltac:(discriminate))
    as (H1 & H2 & H3 & H4 & H5).
  destruct (proj1 export_txt_content_and_filenames Sample.two_wallets Sample.later_clock
              ltac:(discriminate))
    as (H6 & _).
  exact (conj H1 (conj (H2 eq_refl) (conj H3 (conj H4 (conj H5 (f_equal (map App.filename) H6)))))).
Defined.

(** C7. On the empty list, [export] emits nothing for every format: no
    file, no content, no state update; the call returns normally. An export
    never changes the list, whatever it holds. *)
Theorem export_empty_is_noop :
  forall clock format,
    App.saveWalletsToFile [] clock format = []
    /\ App.downloads (App.saveWalletsToFile [] clock format) = []
    /\ App.commit [] (App.saveWalletsToFile [] clock format) = []
    /\ forall ws, App.commit ws (App.saveWalletsToFile ws clock format) = ws.
Proof.
  intros clock format. repeat split.
  intros [|w ws]; [done|].
  rewrite saveWalletsToFile_nonempty by done. reflexivity.
Qed.

(** The last branch of [saveWalletsToFile] is an [else] without a test:
    a string other than "json" and "csv" is exported as "txt" is. *)
Remark saveWalletsToFile_else_branch :
  forall ws clock format,
    format <> "json" -> format <> "csv" ->
    App.saveWalletsToFile ws clock format = App.saveWalletsToFile ws clock "txt".
Proof.
  intros ws clock format Hj Hc. unfold App.saveWalletsToFile.
  apply String.eqb_neq in Hj, Hc. rewrite Hj, Hc. reflexivity.
Qed.



(** ** Selection sets *)

Section SelectionFacts.
Import Selection.

Lemma toggle_absent (s : gset string) a :
  a ∉ s -> toggle s a = {| selected := s ∪ {[a]}; notified := [a] |}.
Proof. intros H. unfold toggle. by rewrite decide_False. Qed.

Lemma toggle_present (s : gset string) a :
  a ∈ s -> toggle s a = {| selected := s ∖ {[a]}; notified := [] |}.
Proof. intros H. unfold toggle. by rewrite decide_True. Qed.

(** One click flips the membership of the clicked address and of no other. *)
Lemma toggle_member (s : gset string) x a :
  bool_decide (a ∈ selected (toggle s x))
  = xorb (bool_decide (a ∈ s)) (String.eqb a x).
Proof.
  unfold toggle. destruct (String.eqb_spec a x) as [->|Hne].
  - destruct (decide (x ∈ s)) as [Hin|Hin]; simpl.
    + rewrite (bool_decide_eq_true_2 _ Hin). apply bool_decide_eq_false_2.
      rewrite elem_of_difference, elem_of_singleton. tauto.
    + rewrite (bool_decide_eq_false_2 _ Hin). apply bool_decide_eq_true_2.
      rewrite elem_of_union, elem_of_singleton. tauto.
  - rewrite xorb_false_r.
    destruct (decide (x ∈ s)); simpl; apply bool_decide_ext.
    + rewrite elem_of_difference, elem_of_singleton. tauto.
    + rewrite elem_of_union, elem_of_singleton. tauto.
Qed.

Lemma toggle_count_cons a x clicks :
  Nat.odd (toggle_count a (x :: clicks))
  = xorb (String.eqb a x) (Nat.odd (toggle_count a clicks)).
Proof.
  unfold toggle_count. simpl. destruct (String.eqb a x); simpl; [|done].
  change (Nat.odd (S ?n)) with (Nat.odd (S n)). rewrite Nat.odd_succ.
  by rewrite <- Nat.negb_odd.
Qed.

Lemma toggles_member (s : gset string) clicks a :
  bool_decide (a ∈ selected (toggles s clicks))
  = xorb (bool_decide (a ∈ s)) (Nat.odd (toggle_count a clicks)).
Proof.
  revert s. induction clicks as [|x rest IH]; intros s.
  - simpl. by rewrite xorb_false_r.
  - rewrite toggle_count_cons. simpl. rewrite IH, toggle_member.
    by rewrite xorb_assoc.
Qed.

Lemma toggles_app (s : gset string) l1 l2 :
  toggles s (l1 ++ l2)
  = {| selected := selected (toggles (selected (toggles s l1)) l2);
       notified := notified (toggles s l1) ++ notified (toggles (selected (toggles s l1)) l2) |}.
Proof.
  revert s. induction l1 as [|x r IH]; intros s; simpl.
  - by destruct (toggles s l2).
  - rewrite IH. simpl. by rewrite app_assoc.
Qed.

End SelectionFacts.

(** C3. Starting from the empty set, after any sequence of toggles an
    address is selected exactly when it was toggled an odd number of times,
    each address on its own and by exact (case-sensitive) string equality.
    A toggle that adds its address calls [onSelectWallet] once with it, a
    toggle that removes it makes no call: the calls of a sequence are the
    toggles whose address had been toggled an even number of times before.
    The four views share this handler. *)
Theorem toggle_parity_and_notify_on_add :
  (forall clicks a,
      a ∈ Selection.selected (Selection.toggles ∅ clicks)
      <-> Nat.Odd (Selection.toggle_count a clicks))
  /\ (forall (s : gset string) a,
        (a ∉ s -> Selection.toggle s a
                  = {| Selection.selected := s ∪ {[a]}; Selection.notified := [a] |})
        /\ (a ∈ s -> Selection.toggle s a
                     = {| Selection.selected := s ∖ {[a]}; Selection.notified := [] |}))
  /\ (forall pre a,
        Selection.notified (Selection.toggles ∅ (pre ++ [a]))
        = Selection.notified (Selection.toggles ∅ pre)
          ++ (if Nat.even (Selection.toggle_count a pre) then [a] else []))
  /\ TradeStatistics.toggleSelectTrader = Selection.toggle
  /\ LivePositions.toggleSelectTrader = Selection.toggle
  /\ TopTraders.toggleSelectTrader = Selection.toggle
  /\ WhaleDetection.toggleSelectWhale = Selection.toggle.
Proof.
  split; [|split; [|split; [|done]]].
  - intros clicks a. rewrite <- Nat.odd_spec.
    pose proof (toggles_member ∅ clicks a) as H.
    rewrite (bool_decide_eq_false_2 (a ∈ (∅ : gset string))) in H by set_solver.
    rewrite xorb_false_l in H. rewrite <- H. apply symmetry, bool_decide_eq_true.
  - intros s a. split; [apply toggle_absent | apply toggle_present].
  - intros pre a. rewrite toggles_app. simpl. f_equal.
    pose proof (toggles_member ∅ pre a) as H.
    rewrite (bool_decide_eq_false_2 (a ∈ (∅ : gset string))) in H by set_solver.
    rewrite xorb_false_l in H. rewrite <- Nat.negb_odd, <- H.
    unfold Selection.toggle.
    destruct (decide (a ∈ Selection.selected (Selection.toggles ∅ pre))) as [Hin|Hin].
    + by rewrite (bool_decide_eq_true_2 _ Hin).
    + by rewrite (bool_decide_eq_false_2 _ Hin).
Qed.

Section SelectAllFacts.
Import Selection.

(** The [forEach] of [selectAllVisible], from any starting copy. *)
Lemma selectAllVisible_forEach (items : list ExtendedTradeStats.t) (o : Outcome) :
  fold_left
    (fun o item =>
       {| selected := selected o ∪ {[ExtendedTradeStats.address item]};
          notified := notified o ++ [ExtendedTradeStats.address item] |})
    items o
  = {| selected := selected o ∪ list_to_set (map ExtendedTradeStats.address items);
       notified := notified o ++ map ExtendedTradeStats.address items |}.
Proof.
  revert o. induction items as [|item rest IH]; intros [sel calls]; simpl.
  - f_equal; [|by rewrite app_nil_r].
    by rewrite union_empty_r_L.
  - rewrite IH. simpl. f_equal; [|by rewrite <- app_assoc].
    by rewrite (assoc_L (∪)).
Qed.

Lemma selectAllVisible_outcome st :
  TradeStatistics.selectAllVisible st
  = {| selected :=
         TradeStatistics.selectedTraders st
         ∪ list_to_set (map ExtendedTradeStats.address (TradeStatistics.getCurrentData st));
       notified := map ExtendedTradeStats.address (TradeStatistics.getCurrentData st) |}.
Proof. unfold TradeStatistics.selectAllVisible. by rewrite selectAllVisible_forEach. Qed.

End SelectAllFacts.

(** C2, as the code has it. Every select-all handler calls [onSelectWallet]
    once for every listed item, in the order of the list, whether or not the
    address of the item was selected before or occurs earlier in the list:
    the calls are the addresses of the items, one for one. *)
Theorem selectAll_notifies_every_item :
  (forall st,
      Selection.notified (TradeStatistics.selectAllVisible st)
      = map ExtendedTradeStats.address (TradeStatistics.getCurrentData st))
  /\ (forall st,
        Selection.notified (TopTraders.selectAll st)
        = map Trader.address (TopTraders.traders st))
  /\ (forall st,
        Selection.notified (WhaleDetection.selectAll st)
        = map Whale.address (WhaleDetection.whales st)).
Proof.
  split; [|split; reflexivity].
  intros st. by rewrite selectAllVisible_outcome.
Qed.

(** C2, as the spec has it, fails: over A, B, A, C on the empty set the
    leaderboard's select-all notifies A twice, where only A, B, C are newly
    added; in the statistics view the select-all notifies 0xA although 0xA
    is selected already and nothing is newly added. *)
Lemma selectAll_renotifies :
  Selection.notified (TopTraders.selectAll Sample.top_ABAC) = ["A"; "B"; "A"; "C"]
  /\ Selection.newly_added (TopTraders.selectedTraders Sample.top_ABAC)
       (map Trader.address (TopTraders.traders Sample.top_ABAC))
     = ["A"; "B"; "C"]
  /\ Selection.notified (TradeStatistics.selectAllVisible Sample.stats_A_selected)
     = ["0xA"]
  /\ Selection.newly_added (TradeStatistics.selectedTraders Sample.stats_A_selected)
       (map ExtendedTradeStats.address
          (TradeStatistics.getCurrentData Sample.stats_A_selected))
     = [].
Proof. repeat split; vm_compute; reflexivity. Qed.

(** C5, as the code has it. In the statistics view the selection after
    [selectAllVisible] is the prior selection together with the addresses of
    the visible items. In the leaderboard and whale views the selection
    after [selectAll] is the set of the addresses of the listed items alone.
    In all three every listed address is selected afterwards. *)
Theorem selectAll_selected_set :
  (forall st,
      Selection.selected (TradeStatistics.selectAllVisible st)
      = TradeStatistics.selectedTraders st
        ∪ list_to_set (map ExtendedTradeStats.address (TradeStatistics.getCurrentData st)))
  /\ (forall st,
        Selection.selected (TopTraders.selectAll st)
        = list_to_set (map Trader.address (TopTraders.traders st)))
  /\ (forall st,
        Selection.selected (WhaleDetection.selectAll st)
        = list_to_set (map Whale.address (WhaleDetection.whales st)))
  /\ (forall st item,
        In item (TradeStatistics.getCurrentData st) ->
        ExtendedTradeStats.address item
          ∈ Selection.selected (TradeStatistics.selectAllVisible st))
  /\ (forall st item,
        In item (TopTraders.traders st) ->
        Trader.address item ∈ Selection.selected (TopTraders.selectAll st))
  /\ (forall st item,
        In item (WhaleDetection.whales st) ->
        Whale.address item ∈ Selection.selected (WhaleDetection.selectAll st)).
Proof.
  split; [|split; [|split; [|split; [|split]]]]; try reflexivity.
  - intros st. by rewrite selectAllVisible_outcome.
  - intros st item Hin. rewrite selectAllVisible_outcome. simpl.
    apply elem_of_union_r, elem_of_list_to_set, list_elem_of_In, in_map, Hin.
  - intros st item Hin. simpl.
    apply elem_of_list_to_set, list_elem_of_In, in_map, Hin.
  - intros st item Hin. simpl.
    apply elem_of_list_to_set, list_elem_of_In, in_map, Hin.
Qed.

(** C5, as the spec has it, fails: in the leaderboard view 0xold was
    selected and is not in the list shown now; after [selectAll] it is no
    longer selected, so the result is not the union with the prior set. *)
Lemma selectAll_drops_prior_selection :
  "0xold" ∈ TopTraders.selectedTraders Sample.top_old_selected
  /\ ("0xold" ∉ Selection.selected (TopTraders.selectAll Sample.top_old_selected))
  /\ Selection.selected (TopTraders.selectAll Sample.top_old_selected)
     <> (TopTraders.selectedTraders Sample.top_old_selected
         ∪ list_to_set (map Trader.address (TopTraders.traders Sample.top_old_selected))).
Proof.
  assert (Hin : "0xold" ∈ TopTraders.selectedTraders Sample.top_old_selected).
  { change ("0xold" ∈ ({["0xold"]} : gset string)). by apply elem_of_singleton_2. }
  assert (Hout : "0xold" ∉ Selection.selected (TopTraders.selectAll Sample.top_old_selected)).
  { change ("0xold" ∉ ({["0xnew"]} ∪ ∅ : gset string)).
    rewrite elem_of_union, elem_of_singleton, elem_of_empty.
    intros [Heq|[]]. discriminate Heq. }
  split; [exact Hin|split; [exact Hout|]].
  intros Heq. apply Hout. rewrite Heq. apply elem_of_union_l, Hin.
Qed.

(** ** Fetch lifecycle *)

Section Lifecycle.
Import Async.

Lemma rejected_app {S} (t1 t2 : list (Event S)) :
  rejected (t1 ++ t2) = rejected t1 || rejected t2.
Proof. apply existsb_app. Qed.

Lemma rejected_fulfilled {S} (t : list (Event S)) :
  forallb is_fulfilled_call t = true -> rejected t = false.
Proof.
  unfold rejected. induction t as [|[r [|]| |] t IH]; simpl; intros H; try done.
  by apply IH.
Qed.

Lemma no_call_after_rejection_app {S} (pre post : list (Event S)) :
  rejected pre = false ->
  no_call_after_rejection (pre ++ post) = no_call_after_rejection post.
Proof.
  unfold rejected. induction pre as [|e pre IH]; simpl; intros H; [done|].
  apply orb_false_elim in H as [He Hpre]. rewrite He. simpl. by apply IH.
Qed.

Lemma run_app {S St} (apply : St -> S -> St) st (t1 t2 : list (Event S)) :
  run apply st (t1 ++ t2) = run apply (run apply st t1) t2.
Proof. unfold run. apply fold_left_app. Qed.

(** Provider calls leave the state of the component alone. *)
Lemma run_fulfilled {S St} (apply : St -> S -> St) st (t : list (Event S)) :
  forallb is_fulfilled_call t = true -> run apply st t = st.
Proof.
  unfold run. revert st.
  induction t as [|[r [|]| |] t IH]; simpl in *; intros st H; try done.
  by apply IH.
Qed.

Lemma forallb_not_set_fulfilled {S} (P : S -> bool) (t : list (Event S)) :
  forallb is_fulfilled_call t = true ->
  forallb (fun e => match e with SetState s => negb (P s) | _ => true end) t = true.
Proof.
  induction t as [|[r [|]| |] t IH]; simpl; intros H; try done.
  by apply IH.
Qed.

(** The loop of [loadData] only calls the provider. It stops at the first
    rejected call, which is then its last event. *)
Lemma loadData_loop P leaderboardData addresses statsMap :
  match for_of addresses statsMap (TradeStatistics.loadData_body P leaderboardData) with
  | (t, Fulfilled _) => forallb is_fulfilled_call t = true
  | (t, Rejected _) =>
      exists pre r, t = pre ++ [Call r false] /\ forallb is_fulfilled_call pre = true
  end.
Proof.
  revert statsMap. induction addresses as [|a rest IH]; intros statsMap; simpl; [done|].
  unfold TradeStatistics.loadData_body at 1. unfold await, bind, ret.
  destruct (fetchUserTrades P a) as [stats|reason]; simpl.
  - match goal with |- context [for_of rest ?m _] => specialize (IH m) end.
    destruct (for_of rest _ _) as [t [m|reason]]; simpl.
    + exact IH.
    + destruct IH as (pre & r & -> & Hpre).
      exists (Call (fetchUserTrades_ a) true :: pre), r. by split.
  - exists [], (fetchUserTrades_ a). by split.
Qed.

End Lifecycle.

Ltac unfold_async :=
  unfold Async.trace, Async.set, Async.console_error, Async.await, Async.try_finally,
    Async.try_catch, Async.bind, Async.ret in *.

Section LifecycleShapes.
Import Async.

Lemma loadTraders_rejected P st reason :
  fetchLeaderboard P (TopTraders.maxResults st) = Rejected reason ->
  TopTraders.loadTraders P st
  = ([SetState (TopTraders.setLoading true);
      SetState (TopTraders.setError None);
      Call (fetchLeaderboard_ (TopTraders.maxResults st)) false;
      SetState (TopTraders.setError (Some "Error loading traders data"));
      SetState (TopTraders.setLoading false)], Fulfilled tt).
Proof. intros H. unfold TopTraders.loadTraders. unfold_async. by rewrite H. Qed.

Lemma loadTraders_fulfilled P st data :
  fetchLeaderboard P (TopTraders.maxResults st) = Fulfilled data ->
  exists shown,
    TopTraders.loadTraders P st
    = ([SetState (TopTraders.setLoading true);
        SetState (TopTraders.setError None);
        Call (fetchLeaderboard_ (TopTraders.maxResults st)) true;
        SetState (TopTraders.setTraders shown);
        SetState (TopTraders.setLoading false)], Fulfilled tt).
Proof.
  intros H. unfold TopTraders.loadTraders. unfold_async. rewrite H.
  eexists. reflexivity.
Qed.

Lemma loadWhales_rejected P st reason :
  fetchWhales P (WhaleDetection.minBalance st) = Rejected reason ->
  WhaleDetection.loadWhales P st
  = ([SetState (WhaleDetection.setLoading true);
      SetState (WhaleDetection.setError None);
      Call (fetchWhales_ (WhaleDetection.minBalance st)) false;
      SetState (WhaleDetection.setError (Some "Error loading whale data"));
      SetState (WhaleDetection.setLoading false)], Fulfilled tt).
Proof. intros H. unfold WhaleDetection.loadWhales. unfold_async. by rewrite H. Qed.

Lemma loadWhales_fulfilled P st data :
  fetchWhales P (WhaleDetection.minBalance st) = Fulfilled data ->
  WhaleDetection.loadWhales P st
  = ([SetState (WhaleDetection.setLoading true);
      SetState (WhaleDetection.setError None);
      Call (fetchWhales_ (WhaleDetection.minBalance st)) true;
      SetState (WhaleDetection.setWhales data);
      SetState (WhaleDetection.setLoading false)], Fulfilled tt).
Proof. intros H. unfold WhaleDetection.loadWhales. unfold_async. by rewrite H. Qed.

(** The three ways [loadPositions] runs. *)
Lemma loadPositions_cases P now :
  (exists reason,
      LivePositions.loadPositions P now
      = ([SetState (LivePositions.setLoading true);
          Call (fetchLeaderboard_ 50) false;
          ConsoleError "Error loading positions:" reason;
          SetState (LivePositions.setLoading false)], Fulfilled tt))
  \/ (exists addresses reason,
        LivePositions.loadPositions P now
        = ([SetState (LivePositions.setLoading true);
            Call (fetchLeaderboard_ 50) true;
            Call (fetchLivePositions_ addresses) false;
            ConsoleError "Error loading positions:" reason;
            SetState (LivePositions.setLoading false)], Fulfilled tt))
  \/ (exists addresses livePositions,
        LivePositions.loadPositions P now
        = ([SetState (LivePositions.setLoading true);
            Call (fetchLeaderboard_ 50) true;
            Call (fetchLivePositions_ addresses) true;
            SetState (LivePositions.setPositions livePositions);
            SetState (LivePositions.setLastUpdate now);
            SetState (LivePositions.setLoading false)], Fulfilled tt)).
Proof.
  unfold LivePositions.loadPositions. unfold_async.
  destruct (fetchLeaderboard P 50) as [traders|reason]; simpl.
  - destruct (fetchLivePositions P (map Trader.address traders)) as [l|reason]; simpl.
    + right; right. by eexists _, _.
    + right; left. by eexists _, _.
  - left. by eexists.
Qed.

(** The three ways [loadData] runs; [t] and [pre] are the fulfilled calls
    of its loop. *)
Lemma loadData_cases P :
  (exists reason,
      TradeStatistics.loadData P
      = ([SetState (TradeStatistics.setLoading true);
          Call (fetchLeaderboard_ 100) false;
          ConsoleError "Error loading data:" reason;
          SetState (TradeStatistics.setLoading false)], Fulfilled tt))
  \/ (exists pre r reason,
        forallb is_fulfilled_call pre = true
        /\ TradeStatistics.loadData P
           = (SetState (TradeStatistics.setLoading true)
              :: Call (fetchLeaderboard_ 100) true
              :: pre
              ++ [Call r false;
                  ConsoleError "Error loading data:" reason;
                  SetState (TradeStatistics.setLoading false)], Fulfilled tt))
  \/ (exists t statsMap,
        forallb is_fulfilled_call t = true
        /\ TradeStatistics.loadData P
           = (SetState (TradeStatistics.setLoading true)
              :: Call (fetchLeaderboard_ 100) true
              :: t
              ++ [SetState (TradeStatistics.setTradeStats statsMap);
                  SetState (TradeStatistics.setLoading false)], Fulfilled tt)).
Proof.
  unfold TradeStatistics.loadData. unfold_async.
  destruct (fetchLeaderboard P 100) as [data|reason]; simpl.
  - pose proof (loadData_loop P data
                  (map Trader.address (JSArray.slice0 30 data)) []) as Hloop.
    destruct (for_of _ _ _) as [t [m|reason]]; simpl.
    + right; right. exists t, m. split; [done|].
      by rewrite <- app_assoc.
    + right; left. destruct Hloop as (pre & r & -> & Hpre).
      exists pre, r, reason. split; [done|].
      by rewrite <- !app_assoc.
  - left. by eexists.
Qed.

End LifecycleShapes.

(** C9. Every view's load function sets [loading] to true before it calls
    the provider, does not touch the flag while the calls are pending, and
    sets it to false as its last step, whether the calls are fulfilled or
    rejected: whatever the state of the view, [loading] is false once the
    load has settled. *)
Theorem loading_brackets_fetch :
  (forall P st st0,
      Async.bracketed (TopTraders.setLoading true) (TopTraders.setLoading false)
        TopTraders.sets_loading (Async.trace (TopTraders.loadTraders P st))
      /\ TopTraders.loading
           (Async.run TopTraders.apply st0 (Async.trace (TopTraders.loadTraders P st)))
         = false)
  /\ (forall P st st0,
        Async.bracketed (WhaleDetection.setLoading true) (WhaleDetection.setLoading false)
          WhaleDetection.sets_loading (Async.trace (WhaleDetection.loadWhales P st))
        /\ WhaleDetection.loading
             (Async.run WhaleDetection.apply st0
                (Async.trace (WhaleDetection.loadWhales P st)))
           = false)
  /\ (forall P st0,
        Async.bracketed (TradeStatistics.setLoading true) (TradeStatistics.setLoading false)
          TradeStatistics.sets_loading (Async.trace (TradeStatistics.loadData P))
        /\ TradeStatistics.loading
             (Async.run TradeStatistics.apply st0 (Async.trace (TradeStatistics.loadData P)))
           = false)
  /\ (forall P now st0,
        Async.bracketed (LivePositions.setLoading true) (LivePositions.setLoading false)
          LivePositions.sets_loading (Async.trace (LivePositions.loadPositions P now))
        /\ LivePositions.loading
             (Async.run LivePositions.apply st0
                (Async.trace (LivePositions.loadPositions P now)))
           = false).
Proof.
  split; [|split; [|split]].
  - intros P st st0.
    destruct (Async.fetchLeaderboard P (TopTraders.maxResults st)) as [data|reason] eqn:H.
    + destruct (loadTraders_fulfilled P st data H) as [shown ->].
      split; [|reflexivity]. by eexists [_; _; _].
    + rewrite (loadTraders_rejected P st reason H).
      split; [|reflexivity]. by eexists [_; _; _].
  - intros P st st0.
    destruct (Async.fetchWhales P (WhaleDetection.minBalance st)) as [data|reason] eqn:H.
    + rewrite (loadWhales_fulfilled P st data H).
      split; [|reflexivity]. by eexists [_; _; _].
    + rewrite (loadWhales_rejected P st reason H).
      split; [|reflexivity]. by eexists [_; _; _].
  - intros P st0.
    destruct (loadData_cases P)
      as [[reason ->]|[(pre & r & reason & Hpre & ->)|(t & m & Ht & ->)]].
    + split; [|reflexivity]. by eexists [_; _].
    + split.
      * exists (Async.Call (Async.fetchLeaderboard_ 100) true
                :: pre ++ [Async.Call r false;
                           Async.ConsoleError "Error loading data:" reason]).
        split; [simpl; by rewrite <- app_assoc|]. split; [done|].
        simpl. rewrite forallb_app, forallb_not_set_fulfilled by done. done.
      * unfold Async.trace, fst.
        change (Async.SetState (TradeStatistics.setLoading true)
                :: Async.Call (Async.fetchLeaderboard_ 100) true :: pre ++ ?l)
          with ([Async.SetState (TradeStatistics.setLoading true);
                 Async.Call (Async.fetchLeaderboard_ 100) true] ++ pre ++ l).
        rewrite !run_app, (run_fulfilled _ _ pre Hpre). reflexivity.
    + split.
      * exists (Async.Call (Async.fetchLeaderboard_ 100) true
                :: t ++ [Async.SetState (TradeStatistics.setTradeStats m)]).
        split; [simpl; by rewrite <- app_assoc|]. split; [done|].
        simpl. rewrite forallb_app, forallb_not_set_fulfilled by done. done.
      * unfold Async.trace, fst.
        change (Async.SetState (TradeStatistics.setLoading true)
                :: Async.Call (Async.fetchLeaderboard_ 100) true :: t ++ ?l)
          with ([Async.SetState (TradeStatistics.setLoading true);
                 Async.Call (Async.fetchLeaderboard_ 100) true] ++ t ++ l).
        rewrite !run_app, (run_fulfilled _ _ t Ht). reflexivity.
  - intros P now st0.
    destruct (loadPositions_cases P now)
      as [[reason ->]|[(addresses & reason & ->)|(addresses & l & ->)]].
    + split; [|reflexivity]. by eexists [_; _].
    + split; [|reflexivity]. by eexists [_; _; _].
    + split; [|reflexivity]. by eexists [_; _; _; _].
Qed.

(** C4, as the code has it. In every view a rejected provider call is
    caught: the load function itself is fulfilled, the fetched data and the
    rest of the state of the view are as before, [loading] is cleared, and
    no provider call follows the rejected one. The leaderboard and whale
    views store an error message, which their render shows. The statistics
    and live-positions views hold no error state: they write the rejection
    to the console, and their state after the failure is the prior state
    with [loading] false. *)
Theorem fetch_failure_is_caught :
  (forall P st st0,
      Async.rejected (Async.trace (TopTraders.loadTraders P st)) = true ->
      let st1 := Async.run TopTraders.apply st0 (Async.trace (TopTraders.loadTraders P st)) in
      snd (TopTraders.loadTraders P st) = Async.Fulfilled tt
      /\ st1 = {| TopTraders.traders := TopTraders.traders st0;
                  TopTraders.loading := false;
                  TopTraders.error := Some "Error loading traders data";
                  TopTraders.selectedTraders := TopTraders.selectedTraders st0;
                  TopTraders.filterType := TopTraders.filterType st0;
                  TopTraders.sortBy := TopTraders.sortBy st0;
                  TopTraders.minPnl := TopTraders.minPnl st0;
                  TopTraders.maxResults := TopTraders.maxResults st0 |}
      /\ TopTraders.error_banner st1 = Some "Error loading traders data"
      /\ Async.no_call_after_rejection (Async.trace (TopTraders.loadTraders P st)) = true)
  /\ (forall P st st0,
        Async.rejected (Async.trace (WhaleDetection.loadWhales P st)) = true ->
        let st1 :=
          Async.run WhaleDetection.apply st0 (Async.trace (WhaleDetection.loadWhales P st)) in
        snd (WhaleDetection.loadWhales P st) = Async.Fulfilled tt
        /\ st1 = {| WhaleDetection.whales := WhaleDetection.whales st0;
                    WhaleDetection.loading := false;
                    WhaleDetection.error := Some "Error loading whale data";
                    WhaleDetection.selectedWhales := WhaleDetection.selectedWhales st0;
                    WhaleDetection.minBalance := WhaleDetection.minBalance st0 |}
        /\ WhaleDetection.error_banner st1 = Some "Error loading whale data"
        /\ Async.no_call_after_rejection (Async.trace (WhaleDetection.loadWhales P st))
           = true)
  /\ (forall P st0,
        Async.rejected (Async.trace (TradeStatistics.loadData P)) = true ->
        snd (TradeStatistics.loadData P) = Async.Fulfilled tt
        /\ Async.run TradeStatistics.apply st0 (Async.trace (TradeStatistics.loadData P))
           = {| TradeStatistics.tradeStats := TradeStatistics.tradeStats st0;
                TradeStatistics.loading := false;
                TradeStatistics.activeTab := TradeStatistics.activeTab st0;
                TradeStatistics.selectedTraders := TradeStatistics.selectedTraders st0 |}
        /\ (exists reason,
              In (Async.ConsoleError "Error loading data:" reason)
                (Async.trace (TradeStatistics.loadData P)))
        /\ Async.no_call_after_rejection (Async.trace (TradeStatistics.loadData P)) = true)
  /\ (forall P now st0,
        Async.rejected (Async.trace (LivePositions.loadPositions P now)) = true ->
        snd (LivePositions.loadPositions P now) = Async.Fulfilled tt
        /\ Async.run LivePositions.apply st0
             (Async.trace (LivePositions.loadPositions P now))
           = {| LivePositions.positions := LivePositions.positions st0;
                LivePositions.selectedTraders := LivePositions.selectedTraders st0;
                LivePositions.activeTab := LivePositions.activeTab st0;
                LivePositions.autoRefresh := LivePositions.autoRefresh st0;
                LivePositions.lastUpdate := LivePositions.lastUpdate st0;
                LivePositions.loading := false |}
        /\ (exists reason,
              In (Async.ConsoleError "Error loading positions:" reason)
                (Async.trace (LivePositions.loadPositions P now)))
        /\ Async.no_call_after_rejection (Async.trace (LivePositions.loadPositions P now))
           = true).
Proof.
  split; [|split; [|split]].
  - intros P st st0.
    destruct (Async.fetchLeaderboard P (TopTraders.maxResults st)) as [data|reason] eqn:H.
    + destruct (loadTraders_fulfilled P st data H) as [shown ->]. discriminate.
    + rewrite (loadTraders_rejected P st reason H). intros _. by repeat split.
  - intros P st st0.
    destruct (Async.fetchWhales P (WhaleDetection.minBalance st)) as [data|reason] eqn:H.
    + rewrite (loadWhales_fulfilled P st data H). discriminate.
    + rewrite (loadWhales_rejected P st reason H). intros _. by repeat split.
  - intros P st0.
    destruct (loadData_cases P)
      as [[reason ->]|[(pre & r & reason & Hpre & ->)|(t & m & Ht & ->)]].
    + intros _. repeat split; try done. exists reason. simpl. tauto.
    + intros _. unfold Async.trace, fst, snd.
      change (Async.SetState (TradeStatistics.setLoading true)
              :: Async.Call (Async.fetchLeaderboard_ 100) true :: pre ++ ?l)
        with ([Async.SetState (TradeStatistics.setLoading true);
               Async.Call (Async.fetchLeaderboard_ 100) true] ++ pre ++ l).
      split; [done|]. split; [|split].
      * rewrite !run_app, (run_fulfilled _ _ pre Hpre). reflexivity.
      * exists reason. apply in_or_app. right. apply in_or_app. right. simpl. tauto.
      * rewrite (no_call_after_rejection_app [_; _]) by done.
        by rewrite no_call_after_rejection_app by by apply rejected_fulfilled.
    + unfold Async.trace, fst.
      change (Async.SetState (TradeStatistics.setLoading true)
              :: Async.Call (Async.fetchLeaderboard_ 100) true :: t ++ ?l)
        with ([Async.SetState (TradeStatistics.setLoading true)] ++
              (Async.Call (Async.fetchLeaderboard_ 100) true :: t) ++ l).
      rewrite !rejected_app.
      rewrite (rejected_fulfilled (_ :: t)) by done. discriminate.
  - intros P now st0.
    destruct (loadPositions_cases P now)
      as [[reason ->]|[(addresses & reason & ->)|(addresses & l & ->)]].
    + intros _. repeat split; try done. exists reason. simpl. tauto.
    + intros _. repeat split; try done. exists reason. simpl. tauto.
    + discriminate.
Qed.

(** C4 with the provider offline, each view holding data from before. *)
Lemma fetch_failure_is_caught_witness :
  TopTraders.traders
    (Async.run TopTraders.apply Sample.top_idle
       (Async.trace (TopTraders.loadTraders Sample.offline Sample.top_idle)))
  = TopTraders.traders Sample.top_idle
  /\ TopTraders.error_banner
       (Async.run TopTraders.apply Sample.top_idle
          (Async.trace (TopTraders.loadTraders Sample.offline Sample.top_idle)))
     = Some "Error loading traders data"
  /\ WhaleDetection.error_banner
       (Async.run WhaleDetection.apply Sample.whale_idle
          (Async.trace (WhaleDetection.loadWhales Sample.offline Sample.whale_idle)))
     = Some "Error loading whale data"
  /\ Async.run TradeStatistics.apply Sample.stats_idle
       (Async.trace (TradeStatistics.loadData Sample.leaderboard_only))
     = Sample.stats_idle
  /\ Async.run LivePositions.apply Sample.live_idle
       (Async.trace (LivePositions.loadPositions Sample.leaderboard_only Sample.refresh_time))
     = Sample.live_idle.
Proof.
  destruct fetch_failure_is_caught as (Htop & Hwhale & Hstats & Hlive).
  destruct (Htop Sample.offline Sample.top_idle Sample.top_idle eq_refl)
    as (_ & Ht1 & Ht2 & _).
  destruct (Hwhale Sample.offline Sample.whale_idle Sample.whale_idle eq_refl)
    as (_ & _ & Hw & _).
  destruct (Hstats Sample.leaderboard_only Sample.stats_idle eq_refl) as (_ & Hs & _).
  destruct (Hlive Sample.leaderboard_only Sample.refresh_time Sample.live_idle eq_refl)
    as (_ & Hl & _).
  split; [by rewrite Ht1|]. split; [exact Ht2|]. split; [exact Hw|].
  split; [exact Hs|exact Hl].
Defined.

(** C4, as the spec has it, fails in two of the four views: with the
    provider offline, a refresh of the live-positions view and of the
    statistics view leaves the state of the view exactly as it was before
    the refresh. No message is stored; the rejection goes to the console. *)
Lemma fetch_failure_stores_no_message :
  Async.rejected
    (Async.trace (LivePositions.loadPositions Sample.offline Sample.refresh_time)) = true
  /\ Async.run LivePositions.apply Sample.live_idle
       (Async.trace (LivePositions.loadPositions Sample.offline Sample.refresh_time))
     = Sample.live_idle
  /\ Async.trace (LivePositions.loadPositions Sample.offline Sample.refresh_time)
     = [Async.SetState (LivePositions.setLoading true);
        Async.Call (Async.fetchLeaderboard_ 50) false;
        Async.ConsoleError "Error loading positions:" "Network Error";
        Async.SetState (LivePositions.setLoading false)]
  /\ Async.rejected (Async.trace (TradeStatistics.loadData Sample.offline)) = true
  /\ Async.run TradeStatistics.apply Sample.stats_idle
       (Async.trace (TradeStatistics.loadData Sample.offline))
     = Sample.stats_idle
  /\ Async.trace (TradeStatistics.loadData Sample.offline)
     = [Async.SetState (TradeStatistics.setLoading true);
        Async.Call (Async.fetchLeaderboard_ 100) false;
        Async.ConsoleError "Error loading data:" "Network Error";
        Async.SetState (TradeStatistics.setLoading false)].
Proof. repeat split. Qed.

(** ** Arrays *)

Section SortFacts.
Context {A : Type}.
Variable compareFn : A -> A -> Q.

Lemma sort_insert_Permutation x l :
  Permutation (JSArray.sort_insert compareFn x l) (x :: l).
Proof.
  induction l as [|y r IH]; simpl; [done|].
  destruct (JSArray.before compareFn x y); [done|].
  rewrite IH. apply perm_swap.
Qed.

(** [sort] rearranges the array: nothing is lost, added or repeated. *)
Lemma sort_Permutation l : Permutation (JSArray.sort compareFn l) l.
Proof.
  induction l as [|x r IH]; simpl; [done|].
  rewrite sort_insert_Permutation. by constructor.
Qed.

(** A comparator that takes the difference of a numeric key, [b.key - a.key]. *)
Variable key : A -> Q.
Hypothesis compareFn_key : forall a b, compareFn a b = (key b - key a)%Q.

Lemma before_descending x y :
  JSArray.before compareFn x y = true <-> (JSArray.descending key) x y.
Proof.
  unfold JSArray.before, JSArray.descending. rewrite Qle_bool_iff, compareFn_key.
  split; intros H; lra.
Qed.

Lemma sort_insert_sorted x l :
  StronglySorted (JSArray.descending key) l ->
  StronglySorted (JSArray.descending key) (JSArray.sort_insert compareFn x l).
Proof.
  induction l as [|y r IH]; simpl; intros Hs.
  - constructor; constructor.
  - destruct (JSArray.before compareFn x y) eqn:Hb.
    + apply before_descending in Hb.
      constructor; [done|]. constructor; [done|].
      apply StronglySorted_inv in Hs as [_ Hy].
      eapply Forall_impl; [exact Hy|].
      intros z Hz. unfold JSArray.descending in *. lra.
    + assert (Hyx : (JSArray.descending key) y x).
      { destruct (Qlt_le_dec (key x) (key y)) as [Hlt|Hle].
        - unfold JSArray.descending. lra.
        - apply before_descending in Hle. congruence. }
      apply StronglySorted_inv in Hs as [Hr Hy].
      constructor; [by apply IH|].
      rewrite sort_insert_Permutation. by constructor.
Qed.

(** With such a comparator the sorted array is in descending order of the key. *)
Lemma sort_sorted l : StronglySorted (JSArray.descending key) (JSArray.sort compareFn l).
Proof.
  induction l as [|x r IH]; simpl; [constructor|]. by apply sort_insert_sorted.
Qed.

End SortFacts.

Lemma slice0_firstn {A} (n : nat) (l : list A) :
  JSArray.slice0 (Z.of_nat n) l = firstn n l.
Proof.
  unfold JSArray.slice0.
  destruct (Z.ltb_spec (Z.of_nat n) 0) as [Hneg|_]; [lia|].
  destruct (Nat.le_gt_cases n (length l)) as [Hle|Hgt].
  - f_equal. lia.
  - rewrite (firstn_all2 (n:=n)) by lia.
    replace (Z.to_nat _) with (length l) by lia. apply firstn_all.
Qed.

(** ** Trade statistics *)

(** C10. The best-win-rate list is made of the fetched entries with at
    least 10 trades: it is the first 20 entries of a rearrangement of these
    that is in descending order of win rate. So it has at most 20 entries,
    each of them fetched and with at least 10 trades, an entry with fewer
    than 10 trades is never in it, and when at most 20 entries qualify it
    holds them all. *)
Theorem sortedByWinRate_active_traders :
  forall tradeStats,
    let eligible :=
      List.filter (fun s => Qle_bool 10 (ExtendedTradeStats.totalTrades s))
        (TradeStatistics.Map_values tradeStats) in
    (exists ranked,
        Permutation ranked eligible
        /\ StronglySorted (JSArray.descending ExtendedTradeStats.winRate) ranked
        /\ TradeStatistics.sortedByWinRate tradeStats = firstn 20 ranked)
    /\ length (TradeStatistics.sortedByWinRate tradeStats) <= 20
    /\ (forall s, In s (TradeStatistics.sortedByWinRate tradeStats) ->
          In s (TradeStatistics.Map_values tradeStats)
          /\ (10 <= ExtendedTradeStats.totalTrades s)%Q)
    /\ (forall s, (ExtendedTradeStats.totalTrades s < 10)%Q ->
          ~ In s (TradeStatistics.sortedByWinRate tradeStats))
    /\ (length eligible <= 20 ->
        Permutation (TradeStatistics.sortedByWinRate tradeStats) eligible).
Proof.
  intros tradeStats eligible.
  set (compareFn := fun a b : ExtendedTradeStats.t =>
         (ExtendedTradeStats.winRate b - ExtendedTradeStats.winRate a)%Q).
  assert (Hdef : TradeStatistics.sortedByWinRate tradeStats
                 = firstn 20 (JSArray.sort compareFn eligible)).
  { unfold TradeStatistics.sortedByWinRate. apply (slice0_firstn 20). }
  assert (Hperm : Permutation (JSArray.sort compareFn eligible) eligible)
    by apply sort_Permutation.
  assert (Hin : forall s, In s (TradeStatistics.sortedByWinRate tradeStats) ->
                  In s (TradeStatistics.Map_values tradeStats)
                  /\ (10 <= ExtendedTradeStats.totalTrades s)%Q).
  { intros s Hs. rewrite Hdef in Hs.
    assert (Hsorted : In s (JSArray.sort compareFn eligible)).
    { rewrite <- (firstn_skipn 20). apply in_or_app. by left. }
    apply (Permutation_in _ Hperm), filter_In in Hsorted as [Hfetched H10].
    split; [done|]. by apply Qle_bool_iff. }
  split; [|split; [|split; [|split]]].
  - exists (JSArray.sort compareFn eligible). split; [done|]. split; [|done].
    by apply sort_sorted.
  - rewrite Hdef, length_firstn. lia.
  - exact Hin.
  - intros s Hlt Hs. apply Hin in Hs as [_ Hge]. lra.
  - intros Hlen. rewrite Hdef, firstn_all2; [done|].
    by rewrite (Permutation_length Hperm).
Qed.

(** C10 on four fetched traders: the one with nine trades is left out
    although its win rate is the highest; equal win rates keep the order of
    the fetch. *)
Lemma sortedByWinRate_active_traders_witness :
  map ExtendedTradeStats.address (TradeStatistics.sortedByWinRate Sample.four_stats)
  = ["0x3"; "0x1"; "0x4"]
  /\ ~ In (Sample.stats "0x2" 9 99) (TradeStatistics.sortedByWinRate Sample.four_stats).
Proof.
  split; [reflexivity|].
  destruct (sortedByWinRate_active_traders Sample.four_stats) as (_ & _ & _ & H & _).
  apply H. reflexivity.
Defined.

(** * Further properties *)

(** ** The aggregate list *)

Section AggregateFacts.
Import App Aggregate.
Variable toLowerCase : string -> string.

Lemma listed_key ws a : listed toLowerCase ws a <-> In (toLowerCase a) (map (key toLowerCase) ws).
Proof.
  unfold listed. rewrite in_map_iff. split.
  - intros (w & Hin & Heq). by exists w.
  - intros (w & Heq & Hin). by exists w.
Qed.

Lemma same_address_key a w :
  same_address toLowerCase a w = true <-> key toLowerCase w = toLowerCase a.
Proof. unfold same_address, key. apply String.eqb_eq. Qed.

Lemma remove_filter ws a :
  remove toLowerCase ws a = List.filter (fun w => negb (same_address toLowerCase a w)) ws.
Proof. reflexivity. Qed.

Lemma In_remove ws a w :
  In w (remove toLowerCase ws a) <-> In w ws /\ key toLowerCase w <> toLowerCase a.
Proof.
  rewrite remove_filter, filter_In, negb_true_iff, <- not_true_iff_false.
  by rewrite same_address_key.
Qed.

Lemma unique_app_entry ws s a :
  unique toLowerCase ws -> ~ listed toLowerCase ws a -> unique toLowerCase (ws ++ [entry s a]).
Proof.
  unfold unique. intros Hu Hl. rewrite map_app. simpl.
  apply NoDup_app. split; [done|]. split; [|apply NoDup_singleton].
  intros k Hk Hk'. apply list_elem_of_singleton in Hk'. subst k.
  apply Hl, listed_key. by apply list_elem_of_In.
Qed.

Lemma unique_filter (f : SelectedWallet -> bool) ws :
  unique toLowerCase ws -> unique toLowerCase (List.filter f ws).
Proof.
  unfold unique. induction ws as [|w ws IH]; simpl; [done|].
  rewrite NoDup_cons. intros [Hw Hu]. destruct (f w); simpl; [|by apply IH].
  apply NoDup_cons. split; [|by apply IH].
  rewrite list_elem_of_In, in_map_iff in *. intros (w' & Heq & Hin).
  apply Hw. exists w'. split; [done|]. by apply filter_In in Hin as [Hin _].
Qed.

End AggregateFacts.

Section AggregateOps.
Import App Aggregate.
Variable toLowerCase : string -> string.

Lemma filter_sublist {A} (f : A -> bool) (l : list A) : sublist (List.filter f l) l.
Proof.
  induction l as [|x l IH]; simpl; [constructor|].
  destruct (f x); by constructor.
Qed.

Lemma filter_all {A} (f : A -> bool) (l : list A) :
  (forall x, In x l -> f x = true) -> List.filter f l = l.
Proof.
  induction l as [|x l IH]; simpl; intros H; [done|].
  rewrite (H x) by by left. f_equal. apply IH. intros y Hy. apply H. by right.
Qed.

Lemma not_listed_remove ws a : ~ listed toLowerCase (remove toLowerCase ws a) a.
Proof. intros (w & Hin & Heq). apply In_remove in Hin as [_ Hne]. by apply Hne. Qed.

Lemma remove_not_listed ws a : ~ listed toLowerCase ws a -> remove toLowerCase ws a = ws.
Proof.
  intros Hl. rewrite remove_filter. apply filter_all. intros w Hin.
  apply negb_true_iff, not_true_iff_false. rewrite same_address_key.
  intros Heq. apply Hl. by exists w.
Qed.

Lemma handleSelectWallet_existsb ws a s :
  handleSelectWallet toLowerCase ws a s
  = if existsb (same_address toLowerCase a) ws then []
    else [setSelectedWallets (fun prev => prev ++ [entry s a])].
Proof.
  unfold handleSelectWallet.
  destruct (List.find (same_address toLowerCase a) ws) as [w|] eqn:Hf.
  - apply find_some in Hf as [Hin Hw].
    assert (existsb (same_address toLowerCase a) ws = true) as -> by (apply existsb_exists; eauto).
    done.
  - destruct (existsb (same_address toLowerCase a) ws) eqn:He; [|done].
    apply existsb_exists in He as (w & Hin & Hw).
    eapply find_none in Hf; [|exact Hin]. congruence.
Qed.

Lemma existsb_same_address ws a :
  existsb (same_address toLowerCase a) ws = true <-> listed toLowerCase ws a.
Proof.
  rewrite existsb_exists. unfold listed. split.
  - intros (w & Hin & Hw). exists w. split; [done|]. by apply same_address_key in Hw.
  - intros (w & Hin & Hw). exists w. split; [done|]. by apply same_address_key.
Qed.

(** The updates queued by the calls of one event, applied to any list. *)
Lemma commit_batch ws s notified acc :
  commit acc (flat_map (onSelectWallet toLowerCase ws s) notified)
  = acc ++ map (entry s)
             (List.filter (fun a => negb (existsb (same_address toLowerCase a) ws)) notified).
Proof.
  revert acc. induction notified as [|a rest IH]; intros acc; simpl.
  - by rewrite app_nil_r.
  - unfold commit in *. rewrite fold_left_app, IH.
    unfold onSelectWallet at 1. rewrite handleSelectWallet_existsb.
    destruct (existsb (same_address toLowerCase a) ws); simpl; [done|].
    by rewrite <- app_assoc.
Qed.

Lemma unique_step ws op : unique toLowerCase ws -> unique toLowerCase (step toLowerCase ws op).
Proof.
  intros Hu. destruct op as [a s|a|]; simpl.
  - destruct (existsb (same_address toLowerCase a) ws) eqn:He.
    + apply existsb_same_address in He. by rewrite add_listed.
    + assert (~ listed toLowerCase ws a) as Hl.
      { intros H. apply existsb_same_address in H. congruence. }
      rewrite add_fresh by done. by apply unique_app_entry.
  - rewrite remove_filter. by apply unique_filter.
  - apply NoDup_nil_2.
Qed.

End AggregateOps.

(** X1. [removeWallet] removes every entry whose address equals the given
    one up to letter case and nothing else: the entries left are the others,
    in their order, and the list is unchanged exactly when no entry had the
    address. Removing 0xAB from the list of 0xAb and 0xcd leaves 0xcd. *)
Theorem remove_case_insensitive :
  forall toLowerCase,
    (forall ws a,
        ~ App.listed toLowerCase (App.remove toLowerCase ws a) a
        /\ (forall w, In w (App.remove toLowerCase ws a)
                      <-> In w ws
                          /\ toLowerCase (App.address w) <> toLowerCase a)
        /\ sublist (App.remove toLowerCase ws a) ws
        /\ (App.remove toLowerCase ws a = ws <-> ~ App.listed toLowerCase ws a))
    /\ (JS.lowers_ascii toLowerCase ->
        App.remove toLowerCase Sample.two_wallets "0xAB"
        = [{| App.address := "0xcd"; App.source := "Whale Detection" |}]).
Proof.
  intros toLowerCase. split.
  - intros ws a. split; [apply not_listed_remove|]. split; [apply In_remove|].
    split; [apply filter_sublist|]. split.
    + intros Heq. rewrite <- Heq. apply not_listed_remove.
    + apply remove_not_listed.
  - intros Hlow. rewrite remove_filter. unfold App.same_address. simpl.
    rewrite !Hlow by reflexivity. reflexivity.
Qed.

(** X1 with the built-in on ASCII strings. *)
Lemma remove_case_insensitive_witness :
  App.remove JS.ascii_toLowerCase Sample.two_wallets "0xAB"
  = [{| App.address := "0xcd"; App.source := "Whale Detection" |}].
Proof.
  exact (proj2 (remove_case_insensitive JS.ascii_toLowerCase) lowers_ascii_ascii).
Defined.

(** X2. Whatever sequence of additions, removals and clearings is made, one
    event each and an addition being the one call of its event, the
    aggregate list never holds two entries whose addresses are equal up to
    letter case. Adding 0xAB, then 0xab, then 0xCD and removing 0xab leaves
    0xCD alone. *)
Theorem aggregate_addresses_unique :
  forall toLowerCase,
    (forall ops, Aggregate.unique toLowerCase (Aggregate.steps toLowerCase [] ops))
    /\ (forall ws ops,
          Aggregate.unique toLowerCase ws ->
          Aggregate.unique toLowerCase (Aggregate.steps toLowerCase ws ops))
    /\ (JS.lowers_ascii toLowerCase ->
        Aggregate.steps toLowerCase []
          [Aggregate.Add "0xAB" "x"; Aggregate.Add "0xab" "y";
           Aggregate.Add "0xCD" "z"; Aggregate.Remove "0xab"]
        = [{| App.address := "0xCD"; App.source := "z" |}]).
Proof.
  intros toLowerCase.
  assert (H : forall ops ws,
             Aggregate.unique toLowerCase ws ->
             Aggregate.unique toLowerCase (Aggregate.steps toLowerCase ws ops)).
  { induction ops as [|op ops IH]; intros ws Hu; simpl; [done|].
    apply IH. by apply unique_step. }
  split; [|split; [intros ws ops; apply H|]].
  - intros ops. apply H. apply NoDup_nil_2.
  - intros Hlow.
    unfold Aggregate.steps, Aggregate.step, App.add, App.remove,
      App.handleSelectWallet, App.removeWallet, App.same_address.
    simpl. repeat (rewrite !Hlow by reflexivity; simpl). reflexivity.
Qed.

(** X2 with the built-in on ASCII strings. *)
Lemma aggregate_addresses_unique_witness :
  Aggregate.steps JS.ascii_toLowerCase []
    [Aggregate.Add "0xAB" "x"; Aggregate.Add "0xab" "y";
     Aggregate.Add "0xCD" "z"; Aggregate.Remove "0xab"]
  = [{| App.address := "0xCD"; App.source := "z" |}].
Proof.
  exact (proj2 (proj2 (aggregate_addresses_unique JS.ascii_toLowerCase))
           lowers_ascii_ascii).
Defined.

(** X3. Adding an address that is not listed and removing it again restores
    the list. After an addition the address is listed, so adding it again
    in a later event, in any casing and from any view, changes nothing. *)
Theorem add_remove_round_trip :
  forall toLowerCase,
    (forall ws a s,
        ~ App.listed toLowerCase ws a ->
        App.remove toLowerCase (App.add toLowerCase ws a s) a = ws)
    /\ (forall ws a s, App.listed toLowerCase (App.add toLowerCase ws a s) a)
    /\ (forall ws a s a' s',
          toLowerCase a' = toLowerCase a ->
          App.add toLowerCase (App.add toLowerCase ws a s) a' s'
          = App.add toLowerCase ws a s).
Proof.
  intros toLowerCase.
  assert (Hlisted : forall ws a s,
             App.listed toLowerCase (App.add toLowerCase ws a s) a).
  { intros ws a s. destruct (existsb (App.same_address toLowerCase a) ws) eqn:He.
    - apply existsb_same_address in He. by rewrite add_listed.
    - assert (~ App.listed toLowerCase ws a) as Hl.
      { intros H. apply existsb_same_address in H. congruence. }
      rewrite add_fresh by done. eexists. split; [apply in_or_app; right; by left|done]. }
  split; [|split; [exact Hlisted|]].
  - intros ws a s Hl. rewrite add_fresh by done.
    rewrite remove_filter, List.filter_app. simpl.
    unfold App.same_address at 2. simpl. rewrite String.eqb_refl. simpl.
    rewrite app_nil_r. by apply remove_not_listed.
  - intros ws a s a' s' Heq. apply add_listed.
    destruct (Hlisted ws a s) as (w & Hin & Hw). exists w. split; [done|congruence].
Qed.

(** X3 on the list of two wallets: 0xEF is added and removed again, and
    adding 0xef after 0xEF changes nothing. *)
Lemma add_remove_round_trip_witness :
  App.remove JS.ascii_toLowerCase
    (App.add JS.ascii_toLowerCase Sample.two_wallets "0xEF" "Live Positions") "0xEF"
  = Sample.two_wallets
  /\ App.add JS.ascii_toLowerCase
       (App.add JS.ascii_toLowerCase Sample.two_wallets "0xEF" "Live Positions")
       "0xef" "Top Traders"
     = App.add JS.ascii_toLowerCase Sample.two_wallets "0xEF" "Live Positions".
Proof.
  assert (Hl : ~ App.listed JS.ascii_toLowerCase Sample.two_wallets "0xEF").
  { intros (w & [<-|[<-|[]]] & Heq); discriminate Heq. }
  destruct (add_remove_round_trip JS.ascii_toLowerCase) as (Hround & _ & Hagain).
  split.
  - exact (Hround Sample.two_wallets "0xEF" "Live Positions" Hl).
  - exact (Hagain Sample.two_wallets "0xEF" "Live Positions" "0xef" "Top Traders"
             eq_refl).
Defined.

(** X4. The calls of [onSelectWallet] a view makes within one event append
    an entry, in call order, for every notified address that the rendered
    list does not hold, and change no earlier entry. A deselecting toggle
    notifies nothing and leaves the aggregate list as it is, a selecting
    toggle acts as one addition. When the rendered list has unique addresses
    and the notified addresses differ pairwise up to letter case, the
    addresses stay unique. *)
Theorem view_event_appends :
  forall toLowerCase,
    (forall ws source notified,
        Aggregate.view_event toLowerCase ws source notified
        = ws ++ map (Aggregate.entry source)
                  (List.filter
                     (fun a => negb (existsb (App.same_address toLowerCase a) ws))
                     notified))
    /\ (forall ws source (selected : gset string) a,
          Aggregate.view_event toLowerCase ws source
            (Selection.notified (Selection.toggle selected a))
          = if decide (a ∈ selected) then ws else App.add toLowerCase ws a source)
    /\ (forall ws source notified,
          Aggregate.unique toLowerCase ws ->
          NoDup (map toLowerCase notified) ->
          Aggregate.unique toLowerCase
            (Aggregate.view_event toLowerCase ws source notified)).
Proof.
  intros toLowerCase.
  assert (Hbatch : forall ws source notified,
             Aggregate.view_event toLowerCase ws source notified
             = ws ++ map (Aggregate.entry source)
                       (List.filter
                          (fun a => negb (existsb (App.same_address toLowerCase a) ws))
                          notified)).
  { intros. apply commit_batch. }
  split; [exact Hbatch|]. split.
  - intros ws source selected a. unfold Selection.toggle.
    destruct (decide (a ∈ selected)); simpl; [done|].
    unfold Aggregate.view_event, App.add. simpl. by rewrite app_nil_r.
  - intros ws source notified Hu Hn. rewrite Hbatch.
    unfold Aggregate.unique in *. rewrite map_app. apply NoDup_app.
    split; [done|]. split.
    + intros k Hk Hk'. rewrite list_elem_of_In in Hk, Hk'.
      apply in_map_iff in Hk' as (w & <- & Hw).
      apply in_map_iff in Hw as (a & <- & Ha).
      apply filter_In in Ha as [_ Ha]. apply negb_true_iff in Ha.
      apply listed_key in Hk. apply existsb_same_address in Hk. simpl in Hk.
      congruence.
    + rewrite map_map. simpl.
      eapply sublist_NoDup; [exact Hn|].
      apply (fmap_sublist toLowerCase). apply filter_sublist.
Qed.

(** X4 on a select-all over two new addresses and one that is listed. *)
Lemma view_event_appends_witness :
  Aggregate.view_event JS.ascii_toLowerCase Sample.two_wallets "Live Positions"
    ["0xEF"; "0xAB"; "0x12"]
  = Sample.two_wallets
    ++ [Aggregate.entry "Live Positions" "0xEF"; Aggregate.entry "Live Positions" "0x12"]
  /\ Aggregate.unique JS.ascii_toLowerCase
       (Aggregate.view_event JS.ascii_toLowerCase Sample.two_wallets "Live Positions"
          ["0xEF"; "0xAB"; "0x12"]).
Proof.
  destruct (view_event_appends JS.ascii_toLowerCase) as (Hbatch & _ & Hunique).
  split.
  - rewrite Hbatch. reflexivity.
  - apply Hunique.
    + unfold Aggregate.unique. simpl.
      apply NoDup_cons. split; [|apply NoDup_singleton].
      intros H. apply list_elem_of_singleton in H. discriminate H.
    + simpl. repeat (apply NoDup_cons; split;
        [rewrite list_elem_of_In; simpl; intros H;
         repeat destruct H as [H|H]; try discriminate H; done|]).
      apply NoDup_nil_2.
Defined.

(** ** The csv export *)

Section CsvFacts.
Import JS App Aggregate.

Lemma string_app_assoc (a b c : string) : ((a ++ b) ++ c = a ++ (b ++ c))%string.
Proof.
  induction a as [|x a IH]; [done|].
  change (String x ((a ++ b) ++ c) = String x (a ++ b ++ c))%string. by rewrite IH.
Qed.

Lemma one_line_app (a b : string) :
  one_line (a ++ b)%string = one_line a && one_line b.
Proof.
  induction a as [|x a IH]; [done|].
  change (negb (Ascii.eqb x (ascii_of_nat 10)) && one_line (a ++ b)%string
          = negb (Ascii.eqb x (ascii_of_nat 10)) && one_line a && one_line b).
  rewrite IH. by rewrite andb_assoc.
Qed.

Lemma csv_rows_text clock i ws content0 :
  csv_rows clock i ws content0 = (content0 ++ csv_text clock i ws)%string.
Proof.
  revert i content0. induction ws as [|w rest IH]; intros i content0; simpl.
  - clear. induction content0 as [|x c IH]; [done|].
    change (String x c = String x (c ++ EmptyString))%string. by rewrite <- IH.
  - rewrite IH. unfold csv_row. by rewrite !string_app_assoc.
Qed.

Lemma split_lines_csv_text clock i ws :
  forallb (fun w => one_line (address w) && one_line (source w)) ws = true ->
  (forall j, one_line (toISOString clock j) = true) ->
  split_lines (csv_text clock i ws)
  = imap (fun j => csv_row clock (i + j)) ws ++ [EmptyString].
Proof.
  intros Hws Hiso. revert i. induction ws as [|w rest IH]; intros i; simpl; [done|].
  simpl in Hws. apply andb_prop in Hws as [Hw Hrest]. apply andb_prop in Hw as [Ha Hs].
  rewrite split_lines_line.
  - rewrite Nat.add_0_r. f_equal. rewrite (IH Hrest (S i)). f_equal.
    apply imap_ext. intros j x _. simpl. f_equal. lia.
  - unfold csv_row. rewrite !one_line_app, Ha, Hs, Hiso. reflexivity.
Qed.

End CsvFacts.

(** X5. The csv export of a non-empty list is one text/csv download whose
    content is the header line followed by one row per wallet, in list
    order, each row ending in a line feed; a row is the address, the source
    and the export-time timestamp joined by commas, written as they are.
    For fields without line feeds the lines of the file are the header, the
    rows, and an empty last line. *)
Theorem export_csv_rows :
  forall ws clock,
    ws <> [] ->
    exists f,
      App.downloads (App.saveWalletsToFile ws clock "csv") = [f]
      /\ App.mimeType f = "text/csv"
      /\ App.content f
         = (Aggregate.csv_header ++ JS.LF ++ Aggregate.csv_text clock 0 ws)%string
      /\ (forallb (fun w => JS.one_line (App.address w) && JS.one_line (App.source w)) ws
          = true ->
          (forall j, JS.one_line (App.toISOString clock j) = true) ->
          JS.split_lines (App.content f)
          = Aggregate.csv_header :: imap (Aggregate.csv_row clock) ws ++ [EmptyString]).
Proof.
  intros ws clock Hne.
  rewrite saveWalletsToFile_nonempty by done. simpl.
  eexists. split; [reflexivity|]. simpl. split; [reflexivity|].
  rewrite csv_rows_text, string_app_assoc. split; [reflexivity|].
  intros Hws Hiso.
  rewrite split_lines_line by reflexivity. f_equal.
  by rewrite split_lines_csv_text.
Qed.

(** X5 on the list of two wallets. *)
Lemma export_csv_rows_witness :
  exists f,
    App.downloads (App.saveWalletsToFile Sample.two_wallets Sample.clock "csv") = [f]
    /\ App.mimeType f = "text/csv"
    /\ App.content f
       = ("Address,Source,Selected At" ++ JS.LF
          ++ "0xAb,Top Traders,2023-11-14T22:13:20.123Z" ++ JS.LF
          ++ "0xcd,Whale Detection,2023-11-14T22:13:20.123Z" ++ JS.LF)%string
    /\ JS.split_lines (App.content f)
       = ["Address,Source,Selected At";
          "0xAb,Top Traders,2023-11-14T22:13:20.123Z";
          "0xcd,Whale Detection,2023-11-14T22:13:20.123Z";
          EmptyString].
Proof.
  destruct (export_csv_rows Sample.two_wallets Sample.clock)
    as (f & Hf & Hmime & Hcontent & Hlines); [discriminate|].
  exists f. split; [exact Hf|]. split; [exact Hmime|]. split; [exact Hcontent|].
  apply Hlines; reflexivity.
Defined.

(** ** Toggle sequences *)

Section ToggleFacts.
Import Selection.
Local Arguments Nat.div : simpl never.

Lemma toggle_other_member (s : gset string) x a :
  a <> x -> (a ∈ selected (toggle s x) <-> a ∈ s).
Proof.
  intros Hne. pose proof (toggle_member s x a) as H.
  apply String.eqb_neq in Hne. rewrite Hne, xorb_false_r in H.
  rewrite <- (bool_decide_eq_true (a ∈ selected (toggle s x))), H.
  apply bool_decide_eq_true.
Qed.

Lemma toggle_notified_other (s : gset string) x a :
  a <> x -> List.filter (String.eqb a) (notified (toggle s x)) = [].
Proof.
  intros Hne. apply String.eqb_neq in Hne. unfold toggle.
  destruct (decide (x ∈ s)); simpl; [done|]. by rewrite Hne.
Qed.

(** The notifications for one address in a click sequence from any set. *)
Lemma toggles_notified_count (s : gset string) clicks a :
  length (List.filter (String.eqb a) (notified (toggles s clicks)))
  = (toggle_count a clicks + (if bool_decide (a ∈ s) then 0 else 1)) / 2.
Proof.
  revert s. induction clicks as [|x rest IH]; intros s.
  - simpl. by destruct (bool_decide (a ∈ s)).
  - simpl. rewrite List.filter_app, length_app, IH.
    unfold toggle_count. simpl.
    destruct (String.eqb_spec a x) as [<-|Hne].
    + destruct (decide (a ∈ s)) as [Hin|Hin].
      * rewrite (toggle_present _ _ Hin). simpl.
        rewrite (bool_decide_eq_true_2 _ Hin), bool_decide_eq_false_2.
        -- f_equal. lia.
        -- rewrite elem_of_difference, elem_of_singleton. tauto.
      * rewrite (toggle_absent _ _ Hin). simpl. rewrite String.eqb_refl. simpl.
        rewrite (bool_decide_eq_false_2 _ Hin), bool_decide_eq_true_2.
        -- set (n := length (List.filter (String.eqb a) rest)).
           replace (S (n + 1)) with (n + 0 + 1 * 2) by lia.
           rewrite Nat.div_add by lia. lia.
        -- rewrite elem_of_union, elem_of_singleton. tauto.
    + rewrite (toggle_notified_other s x a Hne). simpl.
      rewrite (bool_decide_ext _ _ (toggle_other_member s x a Hne)). done.
Qed.

End ToggleFacts.

(** X6. Toggling an address twice in a row restores the selection set,
    whatever it was, and calls [onSelectWallet] exactly once: on the first
    click when the address was not selected, on the second when it was. *)
Theorem toggle_twice_restores :
  forall (s : gset string) a,
    Selection.toggles s [a; a]
    = {| Selection.selected := s; Selection.notified := [a] |}.
Proof.
  intros s a. simpl. destruct (decide (a ∈ s)) as [Hin|Hin].
  - rewrite (toggle_present _ _ Hin). simpl.
    rewrite toggle_absent by (rewrite elem_of_difference, elem_of_singleton; tauto).
    simpl. f_equal. apply set_eq. intros x.
    rewrite elem_of_union, elem_of_difference, elem_of_singleton.
    destruct (decide (x = a)) as [->|Hne]; tauto.
  - rewrite (toggle_absent _ _ Hin). simpl.
    rewrite toggle_present by (rewrite elem_of_union, elem_of_singleton; tauto).
    simpl. f_equal. apply set_eq. intros x.
    rewrite elem_of_difference, elem_of_union, elem_of_singleton.
    destruct (decide (x = a)) as [->|Hne]; tauto.
Qed.

(** X7. In a sequence of toggles that starts from the empty set, an address
    toggled n times is notified to the aggregator on every other toggle,
    beginning with the first: (n + 1) / 2 times, rounded down. *)
Theorem toggle_notification_count :
  forall clicks a,
    length (List.filter (String.eqb a)
              (Selection.notified (Selection.toggles ∅ clicks)))
    = (Selection.toggle_count a clicks + 1) / 2.
Proof.
  intros clicks a. rewrite toggles_notified_count.
  by rewrite bool_decide_eq_false_2 by apply not_elem_of_empty.
Qed.

(** ** Rankings *)

Section RankingFacts.
Context {A : Type}.
Variable compareFn : A -> A -> Q.
Variable key : A -> Q.
Hypothesis compareFn_key : forall a b, compareFn a b = (key b - key a)%Q.

Lemma sorted_app_dominates (l1 l2 : list A) x y :
  StronglySorted (JSArray.descending key) (l1 ++ l2) ->
  In x l1 -> In y l2 -> (key y <= key x)%Q.
Proof.
  induction l1 as [|z l1 IH]; simpl; intros Hs Hx Hy; [done|].
  apply StronglySorted_inv in Hs as [Hs Hz]. destruct Hx as [->|Hx].
  - rewrite Forall_forall in Hz. apply (Hz y).
    apply list_elem_of_In, in_or_app. by right.
  - by apply IH.
Qed.

(** In a list in descending order, the entries after the first [n] are not
    above any of the first [n]. *)
Lemma firstn_dominates n (l : list A) x y :
  StronglySorted (JSArray.descending key) l ->
  In x (firstn n l) -> In y (skipn n l) -> (key y <= key x)%Q.
Proof.
  intros Hs Hx Hy. rewrite <- (firstn_skipn n l) in Hs.
  by apply (sorted_app_dominates (firstn n l) (skipn n l)).
Qed.

(** The first [n] of the sorted array: a descending prefix of a
    rearrangement, with no unlisted entry above a listed one. *)
Lemma top_spec n (l : list A) :
  let top := JSArray.slice0 (Z.of_nat n) (JSArray.sort compareFn l) in
  (exists ranked,
      Permutation ranked l
      /\ StronglySorted (JSArray.descending key) ranked
      /\ top = firstn n ranked)
  /\ length top = Nat.min n (length l)
  /\ (forall x y, In x top -> In y l -> ~ In y top -> (key y <= key x)%Q).
Proof.
  intros top. unfold top. rewrite slice0_firstn.
  pose proof (sort_Permutation compareFn l) as Hperm.
  pose proof (sort_sorted compareFn key compareFn_key l) as Hsorted.
  split; [by exists (JSArray.sort compareFn l)|]. split.
  - by rewrite length_firstn, (Permutation_length Hperm).
  - intros x y Hx Hy Hny.
    apply (firstn_dominates n (JSArray.sort compareFn l)); [done..|].
    apply (Permutation_in _ (Permutation_sym Hperm)) in Hy.
    rewrite <- (firstn_skipn n (JSArray.sort compareFn l)) in Hy.
    apply in_app_or in Hy as [Hy|Hy]; [contradiction|done].
Qed.

Lemma sort_insert_with_key v x (l : list A) :
  StatsView.with_key key v (JSArray.sort_insert compareFn x l)
  = StatsView.with_key key v (x :: l).
Proof.
  unfold StatsView.with_key. induction l as [|y r IH]; simpl; [done|].
  destruct (JSArray.before compareFn x y) eqn:Hb; [done|].
  simpl. rewrite IH. simpl.
  destruct (Qeq_bool (key x) v) eqn:Hx; [|done].
  destruct (Qeq_bool (key y) v) eqn:Hy; [|done].
  apply Qeq_bool_iff in Hx, Hy.
  assert (JSArray.before compareFn x y = true); [|congruence].
  unfold JSArray.before. rewrite Qle_bool_iff, compareFn_key. lra.
Qed.

(** The sort is stable: entries with the same key keep their order. *)
Lemma sort_with_key v (l : list A) :
  StatsView.with_key key v (JSArray.sort compareFn l) = StatsView.with_key key v l.
Proof.
  induction l as [|x r IH]; simpl; [done|].
  rewrite sort_insert_with_key. unfold StatsView.with_key in *. simpl.
  by rewrite IH.
Qed.

Lemma top_with_key n v (l : list A) :
  exists later,
    StatsView.with_key key v l
    = StatsView.with_key key v (JSArray.slice0 (Z.of_nat n) (JSArray.sort compareFn l))
      ++ later.
Proof.
  rewrite slice0_firstn. rewrite <- (sort_with_key v l).
  exists (StatsView.with_key key v (skipn n (JSArray.sort compareFn l))).
  unfold StatsView.with_key. rewrite <- List.filter_app. by rewrite firstn_skipn.
Qed.

End RankingFacts.

(** X8. Each of the rankings by trades, by volume and by profit is the
    first 20 entries of a rearrangement of all fetched entries that is in
    descending order of its key: it has 20 entries, or all of them when
    fewer were fetched, and no fetched entry left out of a ranking has a
    larger key than an entry in it. *)
Theorem rankings_top_twenty :
  forall tradeStats,
    let all := TradeStatistics.Map_values tradeStats in
    let top (key : ExtendedTradeStats.t -> Q) (ranking : list ExtendedTradeStats.t) :=
      (exists ranked,
          Permutation ranked all
          /\ StronglySorted (JSArray.descending key) ranked
          /\ ranking = firstn 20 ranked)
      /\ length ranking = Nat.min 20 (length tradeStats)
      /\ (forall x y, In x ranking -> In y all -> ~ In y ranking -> (key y <= key x)%Q) in
    top ExtendedTradeStats.totalTrades (TradeStatistics.sortedByMostTrades tradeStats)
    /\ top ExtendedTradeStats.totalVolume
         (TradeStatistics.sortedByHighestVolume tradeStats)
    /\ top ExtendedTradeStats.totalPnl (StatsView.sortedByBestPnl tradeStats).
Proof.
  intros tradeStats all top.
  assert (Hlen : length all = length tradeStats) by apply length_map.
  unfold top. rewrite <- Hlen. repeat split.
  all: try (apply (top_spec _ _ (fun a b => eq_refl) 20 all)).
Qed.

(** X9. Ties in a ranking are broken by the order of the fetch: among the
    fetched entries with one and the same key value, a ranking lists the
    earliest ones, in the order in which [loadData] stored them. This holds
    for the rankings by trades, volume and profit, and for the win-rate
    ranking among the entries with at least 10 trades. *)
Theorem rankings_keep_fetch_order :
  forall tradeStats v,
    let all := TradeStatistics.Map_values tradeStats in
    (exists later,
        StatsView.with_key ExtendedTradeStats.totalTrades v all
        = StatsView.with_key ExtendedTradeStats.totalTrades v
            (TradeStatistics.sortedByMostTrades tradeStats) ++ later)
    /\ (exists later,
          StatsView.with_key ExtendedTradeStats.totalVolume v all
          = StatsView.with_key ExtendedTradeStats.totalVolume v
              (TradeStatistics.sortedByHighestVolume tradeStats) ++ later)
    /\ (exists later,
          StatsView.with_key ExtendedTradeStats.totalPnl v all
          = StatsView.with_key ExtendedTradeStats.totalPnl v
              (StatsView.sortedByBestPnl tradeStats) ++ later)
    /\ (exists later,
          StatsView.with_key ExtendedTradeStats.winRate v (StatsView.eligible tradeStats)
          = StatsView.with_key ExtendedTradeStats.winRate v
              (TradeStatistics.sortedByWinRate tradeStats) ++ later).
Proof.
  intros tradeStats v all. repeat split.
  all: apply (top_with_key _ _ (fun a b => eq_refl) 20 v).
Qed.

(** ** A successful load of the leaderboard *)

Section SliceFacts.
Context {A : Type}.

Lemma slice0_firstn_some (e : Z) (l : list A) :
  exists k, JSArray.slice0 e l = firstn k l
            /\ ((0 <= e)%Z -> k = Nat.min (Z.to_nat e) (length l)).
Proof.
  unfold JSArray.slice0. eexists. split; [reflexivity|].
  intros He. destruct (Z.ltb_spec e 0); lia.
Qed.

Lemma In_slice0 (e : Z) (l : list A) x : In x (JSArray.slice0 e l) -> In x l.
Proof.
  destruct (slice0_firstn_some e l) as (k & -> & _). intros H.
  rewrite <- (firstn_skipn k l). apply in_or_app. by left.
Qed.

Lemma StronglySorted_firstn (R : A -> A -> Prop) k (l : list A) :
  StronglySorted R l -> StronglySorted R (firstn k l).
Proof.
  revert k. induction l as [|x l IH]; intros [|k] Hs; simpl; try constructor.
  - apply IH. by apply StronglySorted_inv in Hs as [Hs _].
  - apply StronglySorted_inv in Hs as [_ Hx].
    rewrite Forall_forall in *. intros y Hy. apply Hx.
    rewrite list_elem_of_In in *. rewrite <- (firstn_skipn k l).
    apply in_or_app. by left.
Qed.

End SliceFacts.

Section LoadTradersFacts.
Import Async TopTraders.

Lemma kept_bool_spec st t :
  TopTradersView.kept_bool st t = true <-> TopTradersView.kept st t.
Proof.
  unfold TopTradersView.kept_bool, TopTradersView.kept.
  rewrite andb_true_iff, Qle_bool_iff.
  destruct (filterType st); rewrite ?negb_true_iff, <- ?not_true_iff_false,
    ?Qle_bool_iff; split.
  all: try (intros [H1 H2]; split; [done|]; split; intros He;
            try discriminate He; lra).
  all: intros (H1 & H2 & H3); split; [|done]; try done.
  - specialize (H2 eq_refl). lra.
  - specialize (H3 eq_refl). lra.
Qed.

Lemma filter_filter {A} (f g : A -> bool) (l : list A) :
  List.filter g (List.filter f l) = List.filter (fun x => f x && g x) l.
Proof.
  induction l as [|x l IH]; simpl; [done|].
  destruct (f x); simpl; [|done]. destruct (g x); by rewrite IH.
Qed.

(** The traders a fulfilled [loadTraders] passes to [setTraders]. *)
Lemma loadTraders_shown P st data :
  fetchLeaderboard P (maxResults st) = Fulfilled data ->
  exists compareFn,
    (forall a b,
        compareFn a b
        = (TopTradersView.sort_key (sortBy st) b
           - TopTradersView.sort_key (sortBy st) a)%Q)
    /\ loadTraders P st
       = ([SetState (setLoading true);
           SetState (setError None);
           Call (fetchLeaderboard_ (maxResults st)) true;
           SetState
             (setTraders
                (JSArray.slice0 (maxResults st)
                   (JSArray.sort compareFn
                      (List.filter (TopTradersView.kept_bool st) data))));
           SetState (setLoading false)], Fulfilled tt).
Proof.
  intros H.
  exists (fun a b =>
            match sortBy st with
            | pnl => Trader.pnl b - Trader.pnl a
            | by_volume => Trader.volume b - Trader.volume a
            | pnlRatio => Trader.pnlRatio b - Trader.pnlRatio a
            end%Q).
  split; [intros a b; by destruct (sortBy st)|].
  assert (Hfilter :
            List.filter (TopTradersView.kept_bool st) data
            = List.filter (fun t => Qle_bool (minPnl st) (Trader.pnl t))
                match filterType st with
                | profitable =>
                    List.filter (fun t => negb (Qle_bool (Trader.pnl t) 0)) data
                | volume =>
                    List.filter (fun t => negb (Qle_bool (Trader.volume t) 1000000)) data
                | all => data
                end).
  { unfold TopTradersView.kept_bool.
    destruct (filterType st); by rewrite ?filter_filter. }
  rewrite Hfilter. unfold loadTraders. unfold_async. by rewrite H.
Qed.

End LoadTradersFacts.

(** X10. After a fulfilled [loadTraders] the view is not loading and holds
    no error; the traders it shows are fetched ones that pass the filters
    of the render (minimum PnL, and positive PnL or volume above 1,000,000
    when that filter is chosen), in descending order of the chosen sort key,
    at most [maxResults] of them; when the provider returned no more than
    [maxResults] traders, every fetched trader that passes the filters is
    shown. *)
Theorem loadTraders_success :
  forall P st st0 data,
    Async.fetchLeaderboard P (TopTraders.maxResults st) = Async.Fulfilled data ->
    let st1 :=
      Async.run TopTraders.apply st0 (Async.trace (TopTraders.loadTraders P st)) in
    TopTraders.loading st1 = false
    /\ TopTraders.error st1 = None
    /\ (forall t, In t (TopTraders.traders st1) -> In t data /\ TopTradersView.kept st t)
    /\ StronglySorted
         (JSArray.descending (TopTradersView.sort_key (TopTraders.sortBy st)))
         (TopTraders.traders st1)
    /\ ((0 <= TopTraders.maxResults st)%Z ->
        length (TopTraders.traders st1) <= Z.to_nat (TopTraders.maxResults st))
    /\ ((Z.of_nat (length data) <= TopTraders.maxResults st)%Z ->
        forall t, In t data -> TopTradersView.kept st t ->
                  In t (TopTraders.traders st1)).
Proof.
  intros P st st0 data H st1.
  destruct (loadTraders_shown P st data H) as (compareFn & Hkey & Heq).
  unfold st1. rewrite Heq. simpl.
  set (eligible := List.filter (TopTradersView.kept_bool st) data).
  pose proof (sort_Permutation compareFn eligible) as Hperm.
  split; [done|]. split; [done|]. split; [|split; [|split]].
  - intros t Ht. apply In_slice0 in Ht.
    apply (Permutation_in _ Hperm), filter_In in Ht as [Hin Hk].
    split; [done|]. by apply kept_bool_spec.
  - destruct (slice0_firstn_some (TopTraders.maxResults st)
                (JSArray.sort compareFn eligible)) as (k & -> & _).
    apply StronglySorted_firstn. by apply sort_sorted.
  - intros Hmax.
    destruct (slice0_firstn_some (TopTraders.maxResults st)
                (JSArray.sort compareFn eligible)) as (k & -> & Hk).
    rewrite length_firstn, (Hk Hmax). lia.
  - intros Hmax t Hin Hkept.
    destruct (slice0_firstn_some (TopTraders.maxResults st)
                (JSArray.sort compareFn eligible)) as (k & -> & Hk).
    assert (Hlen : length eligible <= length data) by apply filter_length_le.
    rewrite firstn_all2.
    + apply (Permutation_in _ (Permutation_sym Hperm)), filter_In.
      split; [done|]. by apply kept_bool_spec.
    + rewrite Hk by lia. rewrite (Permutation_length Hperm). lia.
Qed.

(** X10 on a leaderboard of four entries, filtered to profitable traders
    with a PnL of at least 10: the loss-making 0xB is left out. *)
Lemma loadTraders_success_witness :
  map Trader.address
    (TopTraders.traders
       (Async.run TopTraders.apply Fixture.top_profitable
          (Async.trace (TopTraders.loadTraders Fixture.online Fixture.top_profitable))))
  = ["0xC"; "0xA"; "0xA"]
  /\ TopTraders.error
       (Async.run TopTraders.apply Fixture.top_profitable
          (Async.trace (TopTraders.loadTraders Fixture.online Fixture.top_profitable)))
     = None.
Proof.
  split; [reflexivity|].
  exact (proj1 (proj2 (loadTraders_success Fixture.online Fixture.top_profitable
                         Fixture.top_profitable Fixture.leaderboard eq_refl))).
Defined.

(** X11. In the leaderboard and whale views the error banner tells how the
    latest load ended: after a load the banner shows the view's error
    message when the fetch of that load was rejected and nothing when it was
    fulfilled, whatever the banner showed before. *)
Theorem error_banner_follows_last_load :
  (forall P st st0,
      TopTraders.error_banner
        (Async.run TopTraders.apply st0 (Async.trace (TopTraders.loadTraders P st)))
      = if Async.rejected (Async.trace (TopTraders.loadTraders P st))
        then Some "Error loading traders data" else None)
  /\ (forall P st st0,
        WhaleDetection.error_banner
          (Async.run WhaleDetection.apply st0
             (Async.trace (WhaleDetection.loadWhales P st)))
        = if Async.rejected (Async.trace (WhaleDetection.loadWhales P st))
          then Some "Error loading whale data" else None).
Proof.
  split.
  - intros P st st0.
    destruct (Async.fetchLeaderboard P (TopTraders.maxResults st)) as [data|reason] eqn:H.
    + by destruct (loadTraders_fulfilled P st data H) as [shown ->].
    + by rewrite (loadTraders_rejected P st reason H).
  - intros P st st0.
    destruct (Async.fetchWhales P (WhaleDetection.minBalance st)) as [data|reason] eqn:H.
    + by rewrite (loadWhales_fulfilled P st data H).
    + by rewrite (loadWhales_rejected P st reason H).
Qed.

(** ** A successful load of the statistics *)

Section LoadDataFacts.
Import Async TradeStatistics StatsView.

Lemma Map_set_keys_In k v (m : StatsMap) x :
  In x (Map_keys (Map_set k v m)) <-> In x (Map_keys m) \/ x = k.
Proof.
  induction m as [|[k' v'] m IH]; simpl; [split; intros [?|?]; auto; done|].
  destruct (String.eqb_spec k' k) as [->|Hne]; simpl.
  - split; [intros [?|?]; auto|intros [[?|?]|?]; auto].
  - rewrite IH. tauto.
Qed.

Lemma Map_set_In k v (m : StatsMap) k' v' :
  In (k', v') (Map_set k v m) -> (k', v') = (k, v) \/ In (k', v') m.
Proof.
  induction m as [|[k0 v0] m IH]; simpl.
  - intros [H|[]]. by left.
  - destruct (String.eqb k0 k); simpl.
    + intros [H|H]; [by left|right; by right].
    + intros [H|H]; [right; by left|]. destruct (IH H); [by left|right; by right].
Qed.

Lemma Map_set_NoDup k v (m : StatsMap) :
  NoDup (Map_keys m) -> NoDup (Map_keys (Map_set k v m)).
Proof.
  induction m as [|[k' v'] m IH]; simpl; intros Hm.
  - apply NoDup_singleton.
  - apply NoDup_cons in Hm as [Hk' Hm].
    destruct (String.eqb_spec k' k) as [->|Hne]; simpl.
    + by apply NoDup_cons.
    + apply NoDup_cons. split; [|by apply IH].
      rewrite list_elem_of_In, Map_set_keys_In. rewrite list_elem_of_In in Hk'.
      intros [?|?]; [done|]. by apply Hne.
Qed.

(** What a loop of [loadData] that runs to its end has done. *)
Lemma loadData_loop_fulfilled P data addresses acc t m :
  for_of addresses acc (loadData_body P data) = (t, Fulfilled m) ->
  t = map (fun a => Call (fetchUserTrades_ a) true) addresses
  /\ (forall k, In k (Map_keys m) <-> In k (Map_keys acc) \/ In k addresses)
  /\ (NoDup (Map_keys acc) -> NoDup (Map_keys m))
  /\ (forall k v, In (k, v) m ->
        In (k, v) acc
        \/ (In k addresses
            /\ exists stats, fetchUserTrades P k = Fulfilled stats
                             /\ v = entry data k stats)).
Proof.
  revert acc t m. induction addresses as [|a rest IH]; intros acc t m; simpl.
  - unfold ret. intros [= <- <-]. repeat split; try tauto.
  - unfold loadData_body at 1. unfold await, bind, ret.
    destruct (fetchUserTrades P a) as [stats|reason] eqn:Hfetch; simpl; [|done].
    destruct (for_of rest _ _) as [t' [m'|reason]] eqn:Hrest; [|done].
    intros [= <- <-].
    destruct (IH _ _ _ Hrest) as (-> & Hkeys & Hnodup & Hentries).
    split; [done|]. split; [|split].
    + intros k. rewrite Hkeys, Map_set_keys_In. simpl. split; intros H.
      * destruct H as [[?| ->]|?]; auto.
      * destruct H as [?|[ -> |?]]; auto.
    + intros Hacc. by apply Hnodup, Map_set_NoDup.
    + intros k v Hin. destruct (Hentries k v Hin) as [Hset|(Hk & Hv)].
      * apply Map_set_In in Hset as [[= -> ->]|Hacc]; [|by left].
        right. split; [by left|]. by exists stats.
      * right. split; [by right|done].
Qed.

End LoadDataFacts.

(** X12. When every call of a [loadData] is fulfilled, the statistics it
    stores have one entry for each distinct address among the first 30
    traders of the leaderboard and no other, at most 30 in all; the entry of
    an address holds the statistics the provider returned for it and a
    leaderboard trader with that address. The provider is asked once for the
    leaderboard and then once per listed trader, in order, repeated
    addresses included. *)
Theorem loadData_success :
  forall P st0,
    Async.rejected (Async.trace (TradeStatistics.loadData P)) = false ->
    exists data,
      Async.fetchLeaderboard P 100 = Async.Fulfilled data
      /\ let m :=
           TradeStatistics.tradeStats
             (Async.run TradeStatistics.apply st0
                (Async.trace (TradeStatistics.loadData P))) in
         let addresses := map Trader.address (firstn 30 data) in
         NoDup (StatsView.Map_keys m)
         /\ (forall k, In k (StatsView.Map_keys m) <-> In k addresses)
         /\ length m <= 30
         /\ (forall k v, In (k, v) m ->
               exists stats t,
                 Async.fetchUserTrades P k = Async.Fulfilled stats
                 /\ ExtendedTradeStats.stats v = stats
                 /\ ExtendedTradeStats.trader v = Some t
                 /\ Trader.address t = k
                 /\ In t data)
         /\ List.filter Async.is_call (Async.trace (TradeStatistics.loadData P))
            = Async.Call (Async.fetchLeaderboard_ 100) true
              :: map (fun a => Async.Call (Async.fetchUserTrades_ a) true) addresses.
Proof.
  intros P st0. unfold TradeStatistics.loadData. unfold_async.
  destruct (Async.fetchLeaderboard P 100) as [data|reason] eqn:Hlb; simpl;
    [|discriminate].
  change (JSArray.slice0 30 data) with (JSArray.slice0 (Z.of_nat 30) data).
  rewrite (slice0_firstn 30 data).
  pose proof (loadData_loop P data (map Trader.address (firstn 30 data)) []) as Hshape.
  destruct (Async.for_of _ _ _) as [t [m|reason]] eqn:Hloop; simpl.
  - intros _. exists data. split; [done|].
    destruct (loadData_loop_fulfilled _ _ _ _ _ _ Hloop)
      as (-> & Hkeys & Hnodup & Hentries).
    assert (Hcalls : forall l,
               forallb Async.is_fulfilled_call
                 (map (fun a => @Async.Call TradeStatistics.Setter
                                  (Async.fetchUserTrades_ a) true) l) = true).
    { intros l. by induction l. }
    rewrite !run_app, (run_fulfilled _ _ _ (Hcalls _)). simpl.
    assert (Hk : forall k, In k (StatsView.Map_keys m)
                           <-> In k (map Trader.address (firstn 30 data))).
    { intros k. rewrite Hkeys. simpl. tauto. }
    split; [apply Hnodup, NoDup_nil_2|]. split; [exact Hk|]. split; [|split].
    + transitivity (length (map Trader.address (firstn 30 data))).
      * rewrite <- (length_map fst m). apply NoDup_incl_length.
        -- apply NoDup_ListNoDup, Hnodup, NoDup_nil_2.
        -- intros k. apply Hk.
      * rewrite length_map, length_firstn. lia.
    + intros k v Hin. destruct (Hentries k v Hin) as [[]|(Hka & stats & Hs & ->)].
      apply in_map_iff in Hka as (t0 & Ht0 & Hin0).
      assert (Hdata : In t0 data).
      { rewrite <- (firstn_skipn 30 data). apply in_or_app. by left. }
      destruct (List.find (fun t => String.eqb (Trader.address t) k) data)
        as [t1|] eqn:Hfind.
      * pose proof (find_some _ _ Hfind) as [Hin1 Heq1]. apply String.eqb_eq in Heq1.
        exists stats, t1. simpl. by rewrite Hfind.
      * eapply find_none in Hfind; [|exact Hdata]. simpl in Hfind.
        rewrite Ht0, String.eqb_refl in Hfind. discriminate.
    + rewrite List.filter_app. simpl. rewrite app_nil_r. f_equal.
      clear. induction (map Trader.address (firstn 30 data)) as [|a l IH]; [done|].
      simpl. by rewrite IH.
  - destruct Hshape as (pre & r & -> & Hpre).
    intros Hrej. exfalso.
    change (Async.SetState (TradeStatistics.setLoading true)
            :: Async.Call (Async.fetchLeaderboard_ 100) true
            :: ((pre ++ [Async.Call r false]) ++ ?l1) ++ ?l2)
      with ([Async.SetState (TradeStatistics.setLoading true);
             Async.Call (Async.fetchLeaderboard_ 100) true]
            ++ ((pre ++ [Async.Call r false]) ++ l1) ++ l2) in Hrej.
    rewrite !rejected_app in Hrej. simpl in Hrej.
    by rewrite orb_true_r in Hrej.
Qed.

(** X12 with a provider that answers every call and a leaderboard that
    lists 0xA twice: three entries are stored after five calls. *)
Lemma loadData_success_witness :
  StatsView.Map_keys
    (TradeStatistics.tradeStats
       (Async.run TradeStatistics.apply Sample.stats_idle
          (Async.trace (TradeStatistics.loadData Fixture.online))))
  = ["0xA"; "0xB"; "0xC"]
  /\ length (List.filter Async.is_call
               (Async.trace (TradeStatistics.loadData Fixture.online))) = 5.
Proof.
  split; [reflexivity|].
  destruct (loadData_success Fixture.online Sample.stats_idle eq_refl)
    as (data & Hdata & _ & _ & _ & _ & Hcalls).
  rewrite Hcalls. injection Hdata as <-. reflexivity.
Defined.

(** ** The header checkbox of the leaderboard *)

Section CheckboxFacts.

Lemma size_list_to_set_le (l : list string) :
  size (list_to_set l : gset string) <= length l.
Proof.
  induction l as [|x l IH].
  - rewrite list_to_set_nil, size_empty. done.
  - rewrite list_to_set_cons, size_union_alt, size_singleton.
    assert (size ((list_to_set l : gset string) ∖ {[x]}) <= size (list_to_set l : gset string))
      by (apply subseteq_size, subseteq_difference_l; reflexivity).
    simpl. lia.
Qed.

Lemma size_list_to_set_NoDup (l : list string) :
  size (list_to_set l : gset string) = length l <-> NoDup l.
Proof.
  split; [|apply size_list_to_set].
  induction l as [|x l IH]; intros Hsize; [apply NoDup_nil_2|].
  rewrite list_to_set_cons in Hsize. simpl in Hsize.
  pose proof (size_list_to_set_le l) as Hle.
  destruct (decide (x ∈ l)) as [Hin|Hout].
  - exfalso.
    assert (({[x]} ∪ list_to_set l : gset string) = list_to_set l) as Heq.
    { apply subseteq_union_1_L. apply singleton_subseteq_l.
      by apply elem_of_list_to_set. }
    rewrite Heq in Hsize. lia.
  - apply NoDup_cons. split; [done|]. apply IH.
    rewrite size_union in Hsize.
    + rewrite size_singleton in Hsize. lia.
    + apply disjoint_singleton_l. by rewrite elem_of_list_to_set.
Qed.

End CheckboxFacts.

(** X13. Right after [selectAll] the header checkbox of the leaderboard is
    checked exactly when the list is not empty and the addresses of the
    listed traders are pairwise distinct; after [deselectAll] it is not
    checked. *)
Theorem header_checkbox_after_selectAll :
  (forall st,
      TopTradersView.header_checked
        (Selection.selected (TopTraders.selectAll st)) (TopTraders.traders st) = true
      <-> TopTraders.traders st <> []
          /\ NoDup (map Trader.address (TopTraders.traders st)))
  /\ (forall traders,
        TopTradersView.header_checked
          (Selection.selected TopTraders.deselectAll) traders = false).
Proof.
  split.
  - intros st. unfold TopTradersView.header_checked.
    change (Selection.selected (TopTraders.selectAll st))
      with (list_to_set (map Trader.address (TopTraders.traders st)) : gset string).
    rewrite andb_true_iff, Nat.eqb_eq, Nat.ltb_lt.
    rewrite <- (length_map Trader.address (TopTraders.traders st)) at 1.
    rewrite size_list_to_set_NoDup.
    destruct (TopTraders.traders st); simpl; split; intros [H1 H2]; split;
      try done; lia.
  - intros traders. unfold TopTradersView.header_checked.
    change (Selection.selected TopTraders.deselectAll) with (∅ : gset string).
    rewrite size_empty. destruct traders; reflexivity.
Qed.

(** ** Live positions: tabs and grouping *)

Section LiveViewFacts.
Import LiveView.

Lemma filter_split_length {A} (f g : A -> bool) (l : list A) :
  (forall x, f x && g x = false) ->
  length (List.filter f l) + length (List.filter g l)
  + length (List.filter (fun x => negb (f x) && negb (g x)) l)
  = length l.
Proof.
  intros Hfg. induction l as [|x l IH]; simpl; [done|].
  specialize (Hfg x). destruct (f x), (g x); simpl in *; try discriminate; lia.
Qed.

Lemma filter_nil_iff {A} (f : A -> bool) (l : list A) :
  length (List.filter f l) = 0 <-> Forall (fun x => f x = false) l.
Proof.
  induction l as [|x l IH]; simpl.
  - split; [constructor|done].
  - rewrite Forall_cons. destruct (f x); simpl.
    + split; [done|]. by intros [? _].
    + rewrite IH. tauto.
Qed.

(** The [reduce] from any accumulator whose keys are not inherited names. *)
Lemma reduce_groups inherited positions (acc : gmap string (list LivePosition.t)) :
  (forall a, is_Some (acc !! a) -> inherited a = false) ->
  (Forall (fun p => inherited (LivePosition.address p) = false) positions ->
   exists m, reduce inherited positions acc = Normal m
             /\ forall a, m !! a = combine_group (acc !! a) (of_wallet a positions))
  /\ (Exists (fun p => inherited (LivePosition.address p) = true) positions ->
      reduce inherited positions acc = TypeError).
Proof.
  revert acc. induction positions as [|p rest IH]; intros acc Hacc.
  - split.
    + intros _. exists acc. split; [done|]. intros a. unfold combine_group. simpl.
      destruct (acc !! a); [by rewrite app_nil_r|done].
    + intros H. by apply Exists_nil in H.
  - cbn [reduce]. unfold group_step.
    set (k := LivePosition.address p).
    assert (Hnext : forall (group : list LivePosition.t),
               inherited k = false ->
               forall a, is_Some (<[k := group]> acc !! a) -> inherited a = false).
    { intros group Hk a. destruct (decide (k = a)) as [<-|Hne]; [done|].
      rewrite lookup_insert_ne by done. apply Hacc. }
    assert (Hof : forall a, of_wallet a (p :: rest)
                            = if String.eqb k a then p :: of_wallet a rest
                              else of_wallet a rest) by done.
    destruct (acc !! k) as [group|] eqn:Hk.
    + assert (Hkn : inherited k = false) by (apply Hacc; by rewrite Hk).
      destruct (IH (<[k := group ++ [p]]> acc) (Hnext _ Hkn)) as [IHok IHthrow].
      split.
      * intros Hall. apply Forall_cons in Hall as [_ Hall].
        destruct (IHok Hall) as (m & -> & Hm). exists m. split; [done|].
        intros a. rewrite Hm, Hof. destruct (String.eqb_spec k a) as [<-|Hne].
        -- rewrite lookup_insert_eq, Hk. simpl. by rewrite <- app_assoc.
        -- by rewrite lookup_insert_ne.
      * intros Hex. apply Exists_cons in Hex as [Hp|Hex]; [|by apply IHthrow].
        fold k in Hp. congruence.
    + destruct (inherited k) eqn:Hkn.
      * split; [|done]. intros Hall. apply Forall_cons in Hall as [Hp _].
        fold k in Hp. congruence.
      * destruct (IH (<[k := [p]]> acc) (Hnext _ eq_refl)) as [IHok IHthrow].
        split.
        -- intros Hall. apply Forall_cons in Hall as [_ Hall].
           destruct (IHok Hall) as (m & -> & Hm). exists m. split; [done|].
           intros a. rewrite Hm, Hof. destruct (String.eqb_spec k a) as [<-|Hne].
           ++ rewrite lookup_insert_eq, Hk. done.
           ++ by rewrite lookup_insert_ne.
        -- intros Hex. apply Exists_cons in Hex as [Hp|Hex]; [|by apply IHthrow].
           fold k in Hp. congruence.
Qed.

End LiveViewFacts.

(** X14. Under the tab "all" every position is listed, under "open" and
    "closed" those with that status. No position is counted under both, so
    the two counts add up to at most the number of positions, and to exactly
    that number when every status is "open" or "closed": a position with
    another status appears under "all" only. *)
Theorem live_tabs_partition :
  forall positions,
    LiveView.filteredPositions LivePositions.all positions = positions
    /\ LiveView.filteredPositions LivePositions.open positions
       = LiveView.openPositions positions
    /\ LiveView.filteredPositions LivePositions.closed positions
       = LiveView.closedPositions positions
    /\ (forall p, In p (LiveView.openPositions positions) ->
                  ~ In p (LiveView.closedPositions positions))
    /\ length (LiveView.openPositions positions)
       + length (LiveView.closedPositions positions) <= length positions
    /\ (length (LiveView.openPositions positions)
        + length (LiveView.closedPositions positions) = length positions
        <-> Forall (fun p => LivePosition.status p = "open"
                             \/ LivePosition.status p = "closed") positions).
Proof.
  intros positions.
  pose proof (filter_split_length
                (fun p => String.eqb (LivePosition.status p) "open")
                (fun p => String.eqb (LivePosition.status p) "closed") positions) as Hlen.
  assert (Hdisj : forall p : LivePosition.t,
             String.eqb (LivePosition.status p) "open"
             && String.eqb (LivePosition.status p) "closed" = false).
  { intros p. destruct (String.eqb_spec (LivePosition.status p) "open") as [->|]; done. }
  specialize (Hlen Hdisj). cbv beta in Hlen.
  split; [by apply filter_all|]. split; [done|]. split; [done|].
  unfold LiveView.openPositions, LiveView.closedPositions.
  split; [|split].
  - intros p Ho Hc. apply filter_In in Ho as [_ Ho]. apply filter_In in Hc as [_ Hc].
    specialize (Hdisj p). rewrite Ho, Hc in Hdisj. discriminate.
  - rewrite <- Hlen. apply Nat.le_add_r.
  - transitivity
      (length (List.filter
                 (fun p => negb (String.eqb (LivePosition.status p) "open")
                           && negb (String.eqb (LivePosition.status p) "closed"))
                 positions) = 0).
    { split; intros H.
      - rewrite H in Hlen. apply Nat.add_cancel_l with (p := length positions).
        by rewrite Nat.add_0_r.
      - rewrite H, Nat.add_0_r in Hlen. exact Hlen. }
    rewrite filter_nil_iff. apply Forall_iff. intros p.
    destruct (String.eqb_spec (LivePosition.status p) "open"),
             (String.eqb_spec (LivePosition.status p) "closed"); simpl;
      split; try done; auto; intros [?|?]; done.
Qed.

(** X15. Grouping by wallet: when no address is the name of a property
    that a plain object inherits, [positionsByWallet] has a group exactly
    for the addresses that occur, and the group of an address holds the
    positions with that address, all of them, in the order of the list; so
    every position is in the group of its address. When some address is such
    a name, the grouping throws a [TypeError]. *)
Theorem positionsByWallet_groups :
  forall inherited positions,
    (Forall (fun p => inherited (LivePosition.address p) = false) positions ->
     exists m,
       LiveView.positionsByWallet inherited positions = LiveView.Normal m
       /\ (forall a, m !! a = match LiveView.of_wallet a positions with
                              | [] => None
                              | group => Some group
                              end)
       /\ (forall p, In p positions ->
             exists group, m !! LivePosition.address p = Some group /\ In p group))
    /\ (Exists (fun p => inherited (LivePosition.address p) = true) positions ->
        LiveView.positionsByWallet inherited positions = LiveView.TypeError).
Proof.
  intros inherited positions.
  destruct (reduce_groups inherited positions ∅) as [Hok Hthrow].
  { intros a [g Hg]. by rewrite lookup_empty in Hg. }
  split; [|exact Hthrow].
  intros Hall. destruct (Hok Hall) as (m & Hm & Hgroups). exists m.
  assert (Hlookup : forall a, m !! a = match LiveView.of_wallet a positions with
                                       | [] => None
                                       | group => Some group
                                       end).
  { intros a. rewrite Hgroups, lookup_empty. simpl.
    by destruct (LiveView.of_wallet a positions). }
  split; [exact Hm|]. split; [exact Hlookup|].
  intros p Hin.
  assert (Hp : In p (LiveView.of_wallet (LivePosition.address p) positions)).
  { apply filter_In. split; [done|]. apply String.eqb_refl. }
  rewrite Hlookup.
  destruct (LiveView.of_wallet (LivePosition.address p) positions) as [|q group];
    [done|]. by exists (q :: group).
Qed.

(** X15 on four positions of three wallets, and on a list with a position
    whose address is "constructor". *)
Lemma positionsByWallet_groups_witness :
  (exists m,
      LiveView.positionsByWallet Fixture.inherited Fixture.positions = LiveView.Normal m
      /\ m !! "0xA" = Some [Fixture.position "0xA" "open" 5;
                            Fixture.position "0xA" "closed" 2]
      /\ m !! "0xD" = None)
  /\ LiveView.positionsByWallet Fixture.inherited
       (Fixture.positions ++ [Fixture.position "constructor" "open" 1])
     = LiveView.TypeError.
Proof.
  split.
  - destruct (proj1 (positionsByWallet_groups Fixture.inherited Fixture.positions))
      as (m & Hm & Hgroups & _).
    { repeat constructor. }
    exists m. split; [exact Hm|]. split; apply Hgroups.
  - apply (proj2 (positionsByWallet_groups Fixture.inherited _)).
    apply Exists_exists. exists (Fixture.position "constructor" "open" 1).
    split; [|reflexivity]. apply list_elem_of_In, in_or_app. right. by left.
Defined.

(** ** Durations *)

Section DurationFacts.
Local Open Scope Z_scope.

Lemma duration_split (diff : Z) :
  0 <= diff ->
  let h := diff / 3600000 in
  let m := Z.rem diff 3600000 / 60000 in
  let s := Z.rem diff 60000 / 1000 in
  diff = h * 3600000 + m * 60000 + s * 1000 + diff mod 1000
  /\ 0 <= h /\ 0 <= m < 60 /\ 0 <= s < 60.
Proof.
  intros Hd h m s. unfold h, m, s.
  rewrite !Z.rem_mod_nonneg by lia.
  Z.div_mod_to_equations. lia.
Qed.

Lemma duration_negative (diff : Z) :
  diff < 0 ->
  diff / 3600000 < 0
  /\ Z.rem diff 3600000 / 60000 <= 0
  /\ -60 <= Z.rem diff 60000 / 1000 <= 0.
Proof.
  intros Hd.
  pose proof (Z.rem_bound_pos_neg diff 3600000 ltac:(lia) ltac:(lia)) as H1.
  pose proof (Z.rem_bound_pos_neg diff 60000 ltac:(lia) ltac:(lia)) as H2.
  revert H1 H2. generalize (Z.rem diff 3600000), (Z.rem diff 60000).
  intros r1 r2 H1 H2. Z.div_mod_to_equations. lia.
Qed.

End DurationFacts.

(** X16. For a start that is not after the end, [formatDuration] shows the
    elapsed time rounded down in its largest unit and the next one: whole
    hours and the minutes left (below 60) from one hour on, else whole
    minutes and the seconds left (below 60) from one minute on, else the
    whole seconds. What it leaves out is less than a minute, a second, or a
    millisecond of a second respectively. *)
Theorem formatDuration_units :
  forall now startTime endTime,
    LiveView.valid_time startTime -> LiveView.valid_time endTime ->
    endTime <> 0%Z -> (startTime <= endTime)%Z ->
    exists h m s ms : Z,
      (endTime - startTime = h * 3600000 + m * 60000 + s * 1000 + ms)%Z
      /\ (0 <= h)%Z /\ (0 <= m < 60)%Z /\ (0 <= s < 60)%Z /\ (0 <= ms < 1000)%Z
      /\ LiveView.formatDuration now startTime (Some endTime)
         = if (h >? 0)%Z then (pretty h ++ "h " ++ pretty m ++ "m")%string
           else if (m >? 0)%Z then (pretty m ++ "m " ++ pretty s ++ "s")%string
           else (pretty s ++ "s")%string.
Proof.
  intros now startTime endTime _ _ Hne Hle.
  unfold LiveView.formatDuration.
  apply Z.eqb_neq in Hne. rewrite Hne.
  change (1000 * 60 * 60)%Z with 3600000%Z. change (1000 * 60)%Z with 60000%Z.
  destruct (duration_split (endTime - startTime)) as (Heq & Hh & Hm & Hs); [lia|].
  eexists _, _, _, _. split; [exact Heq|].
  split; [done|]. split; [done|]. split; [done|]. split; [|reflexivity].
  apply Z.mod_pos_bound. lia.
Qed.

(** X16 on an interval of one hour, two minutes and five seconds. *)
Lemma formatDuration_units_witness :
  LiveView.formatDuration 1700000000000 1700000000000 (Some 1700003725000%Z) = "1h 2m".
Proof.
  destruct (formatDuration_units 1700000000000 1700000000000 1700003725000)
    as (h & m & s & ms & Heq & Hh & Hm & Hs & Hms & ->).
  - unfold LiveView.valid_time. lia.
  - unfold LiveView.valid_time. lia.
  - lia.
  - lia.
  - assert (h = 1 /\ m = 2 /\ s = 5)%Z as (-> & -> & ->) by lia. reflexivity.
Defined.

(** X17. For an end before the start, [formatDuration] shows neither hours
    nor minutes, however far apart the two are: the output is a number of
    seconds between -60 and 0, followed by "s". *)
Theorem formatDuration_end_before_start :
  forall now startTime endTime,
    LiveView.valid_time startTime -> LiveView.valid_time endTime ->
    endTime <> 0%Z -> (endTime < startTime)%Z ->
    exists s : Z,
      (-60 <= s <= 0)%Z
      /\ LiveView.formatDuration now startTime (Some endTime) = (pretty s ++ "s")%string.
Proof.
  intros now startTime endTime _ _ Hne Hlt.
  unfold LiveView.formatDuration.
  apply Z.eqb_neq in Hne. rewrite Hne.
  change (1000 * 60 * 60)%Z with 3600000%Z. change (1000 * 60)%Z with 60000%Z.
  destruct (duration_negative (endTime - startTime)) as (Hh & Hm & Hs); [lia|].
  eexists. split; [exact Hs|].
  destruct (Z.gtb_spec ((endTime - startTime) / 3600000) 0); [lia|].
  destruct (Z.gtb_spec (Z.rem (endTime - startTime) 3600000 / 60000) 0); [lia|].
  reflexivity.
Qed.

(** X17 on an end two hours and half a second before the start. *)
Lemma formatDuration_end_before_start_witness :
  exists s : Z,
    (-60 <= s <= 0)%Z
    /\ LiveView.formatDuration 0 1700007200500 (Some 1700000000000%Z)
       = (pretty s ++ "s")%string.
Proof.
  apply (formatDuration_end_before_start 0 1700007200500 1700000000000);
    unfold LiveView.valid_time; lia.
Defined.

(** X18. [getTimeAgo] names the largest unit that is not zero, rounded
    down: "Just now" below one minute (a time in the future included),
    minutes (1 to 59) below one hour, hours (1 to 23) below one day, days
    from then on. *)
Theorem getTimeAgo_units :
  forall now timestamp,
    LiveView.valid_time now -> LiveView.valid_time timestamp ->
    let diff := (now - timestamp)%Z in
    ((diff < 60000)%Z -> LiveView.getTimeAgo now timestamp = "Just now")
    /\ ((60000 <= diff < 3600000)%Z ->
        LiveView.getTimeAgo now timestamp = (pretty (diff / 60000)%Z ++ "m ago")%string
        /\ (1 <= diff / 60000 <= 59)%Z)
    /\ ((3600000 <= diff < 86400000)%Z ->
        LiveView.getTimeAgo now timestamp = (pretty (diff / 3600000)%Z ++ "h ago")%string
        /\ (1 <= diff / 3600000 <= 23)%Z)
    /\ ((86400000 <= diff)%Z ->
        LiveView.getTimeAgo now timestamp
        = (pretty (diff / 86400000)%Z ++ "d ago")%string
        /\ (1 <= diff / 86400000)%Z).
Proof.
  intros now timestamp _ _ diff. unfold LiveView.getTimeAgo. fold diff.
  change (1000 * 60 * 60 * 24)%Z with 86400000%Z.
  change (1000 * 60 * 60)%Z with 3600000%Z. change (1000 * 60)%Z with 60000%Z.
  destruct (Z.gtb_spec (diff / 86400000) 0) as [Hd|Hd];
    destruct (Z.gtb_spec (diff / 3600000) 0) as [Hh|Hh];
    destruct (Z.gtb_spec (diff / 60000) 0) as [Hm|Hm];
    repeat split; intros; try reflexivity;
    try (exfalso; Z.div_mod_to_equations; lia);
    try (Z.div_mod_to_equations; lia).
Qed.

(** X18 on a position opened 25 hours ago and on one opened 90 seconds ago. *)
Lemma getTimeAgo_units_witness :
  LiveView.getTimeAgo 1700090000000 1700000000000 = "1d ago"
  /\ LiveView.getTimeAgo 1700000090000 1700000000000 = "1m ago".
Proof.
  assert (Hv : forall t, (0 <= t <= 1700090000000)%Z -> LiveView.valid_time t).
  { intros t Ht. unfold LiveView.valid_time. lia. }
  destruct (getTimeAgo_units 1700090000000 1700000000000
              (Hv 1700090000000%Z ltac:(lia)) (Hv 1700000000000%Z ltac:(lia)))
    as (_ & _ & _ & Hd).
  destruct (getTimeAgo_units 1700000090000 1700000000000
              (Hv 1700000090000%Z ltac:(lia)) (Hv 1700000000000%Z ltac:(lia)))
    as (_ & Hm & _).
  split.
  - apply Hd. lia.
  - apply Hm. lia.
Defined.

(** ** The positions of an expanded whale *)

Section WhalePositionsFacts.
Import WhalePositions.

Lemma loadWhalePositions_skip inherited fetch st a :
  cached inherited (whalePositions st) a = true \/ a ∈ loadingPositions st ->
  loadWhalePositions inherited fetch st a = [].
Proof.
  intros H. unfold loadWhalePositions.
  destruct H as [-> | Hin]; [done|].
  rewrite (bool_decide_eq_true_2 _ Hin). by rewrite orb_true_r.
Qed.

Lemma loading_restored (prev : gset string) a : a ∉ prev -> (prev ∪ {[a]}) ∖ {[a]} = prev.
Proof.
  intros Ha. apply set_eq. intros x.
  rewrite elem_of_difference, elem_of_union, elem_of_singleton.
  destruct (decide (x = a)) as [->|Hne]; tauto.
Qed.

End WhalePositionsFacts.

(** X19. The positions of a whale are fetched at most once while they are
    cached or being loaded: [loadWhalePositions] makes no provider call and
    no state update for an address that has cached positions, that is being
    loaded, or that is the name of a property a plain object inherits.
    Collapsing the expanded whale only clears [expandedWhale]; expanding
    such an address only sets it. *)
Theorem whale_positions_cached :
  forall inherited fetch st a,
    WhalePositions.cached inherited (WhalePositions.whalePositions st) a = true
    \/ a ∈ WhalePositions.loadingPositions st ->
    WhalePositions.loadWhalePositions inherited fetch st a = []
    /\ WhalePositions.fetches (WhalePositions.toggleExpandWhale inherited fetch st a) = []
    /\ WhalePositions.run st (WhalePositions.toggleExpandWhale inherited fetch st a)
       = {| WhalePositions.expandedWhale :=
              if bool_decide (WhalePositions.expandedWhale st = Some a) then None
              else Some a;
            WhalePositions.whalePositions := WhalePositions.whalePositions st;
            WhalePositions.loadingPositions := WhalePositions.loadingPositions st |}.
Proof.
  intros inherited fetch st a H.
  pose proof (loadWhalePositions_skip inherited fetch st a H) as Hskip.
  split; [exact Hskip|]. unfold WhalePositions.toggleExpandWhale. rewrite Hskip.
  by destruct (bool_decide (WhalePositions.expandedWhale st = Some a)).
Qed.

(** X19 on a whale whose positions were loaded before. *)
Lemma whale_positions_cached_witness :
  WhalePositions.loadWhalePositions Fixture.inherited Fixture.positions_online
    {| WhalePositions.expandedWhale := None;
       WhalePositions.whalePositions := {["0xW" := [Fixture.whale_position]]};
       WhalePositions.loadingPositions := ∅ |} "0xW"
  = [].
Proof.
  apply whale_positions_cached. left.
  unfold WhalePositions.cached. simpl. by rewrite lookup_singleton_eq.
Defined.

(** X20. For an address that is neither cached nor being loaded,
    [loadWhalePositions] calls the provider once. When the call is fulfilled
    the positions are stored under the address, the other cached entries
    and the loading set are as before, and a further load of the address
    makes no call. When the call is rejected the state is as before, the
    rejection goes to the console, and a further load calls the provider
    again. *)
Theorem whale_positions_loaded :
  forall inherited fetch st a,
    WhalePositions.cached inherited (WhalePositions.whalePositions st) a = false ->
    a ∉ WhalePositions.loadingPositions st ->
    let effects := WhalePositions.loadWhalePositions inherited fetch st a in
    let st1 := WhalePositions.run st effects in
    WhalePositions.fetches effects = [a]
    /\ match fetch a with
       | Async.Fulfilled positions =>
           st1 = {| WhalePositions.expandedWhale := WhalePositions.expandedWhale st;
                    WhalePositions.whalePositions :=
                      <[a := positions]> (WhalePositions.whalePositions st);
                    WhalePositions.loadingPositions :=
                      WhalePositions.loadingPositions st |}
           /\ WhalePositions.loadWhalePositions inherited fetch st1 a = []
       | Async.Rejected reason =>
           st1 = st
           /\ In (WhalePositions.consoleError "Error loading positions:" reason) effects
           /\ WhalePositions.fetches
                (WhalePositions.loadWhalePositions inherited fetch st1 a) = [a]
       end.
Proof.
  intros inherited fetch st a Hcache Hload effects st1.
  assert (Heff : effects
                 = WhalePositions.setLoadingPositions (fun prev => prev ∪ {[a]})
                   :: match fetch a with
                      | Async.Fulfilled positions =>
                          [WhalePositions.fetchUserPositions_ a true;
                           WhalePositions.setWhalePositions
                             (fun prev => <[a := positions]> prev)]
                      | Async.Rejected err =>
                          [WhalePositions.fetchUserPositions_ a false;
                           WhalePositions.consoleError "Error loading positions:" err]
                      end
                   ++ [WhalePositions.setLoadingPositions (fun prev => prev ∖ {[a]})]).
  { unfold effects, WhalePositions.loadWhalePositions.
    by rewrite Hcache, (bool_decide_eq_false_2 _ Hload). }
  unfold st1. rewrite Heff. clear st1 Heff effects.
  destruct st as [expanded cache loading]. simpl in Hcache, Hload.
  destruct (fetch a) as [positions|reason] eqn:Hfetch; simpl.
  - split; [done|]. rewrite (loading_restored loading a Hload). split; [done|].
    apply loadWhalePositions_skip. left. unfold WhalePositions.cached. simpl.
    by rewrite lookup_insert_eq.
  - split; [done|]. rewrite (loading_restored loading a Hload). split; [done|].
    split; [tauto|].
    unfold WhalePositions.loadWhalePositions. simpl.
    rewrite Hcache, (bool_decide_eq_false_2 _ Hload), Hfetch. done.
Qed.

(** X20 on a first load that is fulfilled and on one that is rejected. *)
Lemma whale_positions_loaded_witness :
  WhalePositions.whalePositions
    (WhalePositions.run WhalePositions.initial
       (WhalePositions.loadWhalePositions Fixture.inherited Fixture.positions_online
          WhalePositions.initial "0xW"))
  = <["0xW" := [Fixture.whale_position]]> ∅
  /\ WhalePositions.run WhalePositions.initial
       (WhalePositions.loadWhalePositions Fixture.inherited Fixture.positions_offline
          WhalePositions.initial "0xW")
     = WhalePositions.initial.
Proof.
  assert (Hcache : WhalePositions.cached Fixture.inherited
                     (WhalePositions.whalePositions WhalePositions.initial) "0xW" = false).
  { unfold WhalePositions.cached. simpl. by rewrite lookup_empty. }
  assert (Hload : "0xW" ∉ WhalePositions.loadingPositions WhalePositions.initial)
    by apply not_elem_of_empty.
  destruct (whale_positions_loaded Fixture.inherited Fixture.positions_online
              WhalePositions.initial "0xW" Hcache Hload) as [_ [Hon _]].
  destruct (whale_positions_loaded Fixture.inherited Fixture.positions_offline
              WhalePositions.initial "0xW" Hcache Hload) as [_ [Hoff _]].
  split; [by rewrite Hon|exact Hoff].
Defined.

(** ** Select all visible *)

(** X21. One click on "Select All Visible" notifies at most 20 addresses,
    each the address of a fetched entry; under the win-rate tab each of them
    belongs to an entry with at least 10 trades. *)
Theorem selectAllVisible_bounded :
  forall st,
    let notified := Selection.notified (TradeStatistics.selectAllVisible st) in
    length notified <= 20
    /\ (forall a, In a notified ->
          exists s, In s (TradeStatistics.Map_values (TradeStatistics.tradeStats st))
                    /\ ExtendedTradeStats.address s = a
                    /\ (TradeStatistics.activeTab st = TradeStatistics.bestWinRate ->
                        (10 <= ExtendedTradeStats.totalTrades s)%Q)).
Proof.
  intros st notified. unfold notified. rewrite selectAllVisible_outcome. simpl.
  rewrite length_map. unfold TradeStatistics.getCurrentData.
  assert (Hlen : forall l : list ExtendedTradeStats.t,
             length (JSArray.slice0 20 l) <= 20).
  { intros l. change (JSArray.slice0 20 l) with (JSArray.slice0 (Z.of_nat 20) l).
    rewrite (slice0_firstn 20 l), length_firstn. lia. }
  split.
  - destruct (TradeStatistics.activeTab st); apply Hlen.
  - intros a Ha. apply in_map_iff in Ha as (s & <- & Hs). exists s.
    destruct (TradeStatistics.activeTab st); apply In_slice0 in Hs;
      apply (Permutation_in _ (sort_Permutation _ _)) in Hs.
    + split; [done|]. split; [done|]. discriminate.
    + split; [done|]. split; [done|]. discriminate.
    + apply filter_In in Hs as [Hs H10]. split; [done|]. split; [done|].
      intros _. by apply Qle_bool_iff.
Qed.

(** ** Additions, one event each *)

(** X22. An addition that is the one call of its event deduplicates up
    to letter case, and the first selection wins: when an entry already has
    the address, the list is unchanged (casing and source label of the
    entry included); otherwise the pair is appended at the end, the earlier
    entries keeping their order. Adding "0xAB" from "x" and, in a later
    event, "0xab" from "y" to the empty list leaves the single entry "0xAB"
    from "x". *)
Lemma add_alone_first_wins :
  forall toLowerCase,
    (forall ws a s,
        (App.listed toLowerCase ws a -> App.add toLowerCase ws a s = ws)
        /\ (~ App.listed toLowerCase ws a ->
            App.add toLowerCase ws a s
            = ws ++ [{| App.address := a; App.source := s |}]))
    /\ (JS.lowers_ascii toLowerCase ->
        App.add toLowerCase (App.add toLowerCase [] "0xAB" "x") "0xab" "y"
        = [{| App.address := "0xAB"; App.source := "x" |}]).
Proof.
  intros toLowerCase. split.
  - intros ws a s. split; [apply add_listed | apply add_fresh].
  - intros Hlow.
    change (App.add toLowerCase [] "0xAB" "x")
      with [{| App.address := "0xAB"; App.source := "x" |}].
    apply add_listed. eexists. split; [by left|]. simpl.
    rewrite !Hlow by reflexivity. reflexivity.
Qed.

(** X22 on a list that holds 0xAB from "x": 0xab is listed already, 0xCD
    is not. *)
Lemma add_alone_first_wins_example :
  App.add JS.ascii_toLowerCase [{| App.address := "0xAB"; App.source := "x" |}] "0xab" "y"
  = [{| App.address := "0xAB"; App.source := "x" |}]
  /\ App.add JS.ascii_toLowerCase [{| App.address := "0xAB"; App.source := "x" |}] "0xCD" "y"
     = [{| App.address := "0xAB"; App.source := "x" |};
        {| App.address := "0xCD"; App.source := "y" |}].
Proof.
  destruct (proj1 (add_alone_first_wins JS.ascii_toLowerCase)
              [{| App.address := "0xAB"; App.source := "x" |}] "0xab" "y") as [Hdup _].
  destruct (proj1 (add_alone_first_wins JS.ascii_toLowerCase)
              [{| App.address := "0xAB"; App.source := "x" |}] "0xCD" "y") as [_ Hnew].
  split.
  - apply Hdup. eexists. split; [by left|reflexivity].
  - apply Hnew. intros [w [[<-|[]] Heq]]. discriminate Heq.
Defined.
